(** * colossalai/logging/logger.py : the rank-aware [DistributedLogger]

    A shallow embedding of [src/colossalai/logging/logger.py].  The class is
    a thin wrapper over Python's [logging] module, so the development has
    three layers:

    - [Py]      : the fragment of the Python runtime the file relies on
                  (exceptions, [os.path], [str.format] of an [int]);
    - [Logging] : the fragment of the standard [logging] module the class
                  calls ([getLogger], levels, handlers, propagation);
    - [DistributedLogger] : the class itself, method by method.

    Python statements have effects and may raise, so every method is a
    computation in a small reader/state/exception monad [M]: it reads the
    environment (the parallel context and the operating system), threads the
    interpreter state, and returns either a value or a raised exception.
    Effects performed before a [raise] stay in the state, as in Python. *)

From Stdlib Require Import ZArith String Ascii List Bool DecimalString.
From stdpp Require Import gmap strings list.

Local Open Scope string_scope.
Local Open Scope list_scope.
Local Open Scope Z_scope.

(* ===================================================================== *)
(** ** Python runtime fragment *)
(* ===================================================================== *)

Module Py.

(** Exception classes that the file raises or that reach it. *)
Inductive ExnClass :=
| AssertionError
| Exception
| IndexError
| AttributeError
| KeyError
| FileNotFoundError
| PermissionError
| IsADirectoryError
| NotADirectoryError
| OSError.

Record PyExn := mkExn { exn_class : ExnClass; exn_msg : string }.

Inductive Res (A : Type) :=
| Ok (a : A)
| Raise (e : PyExn).
Arguments Ok {A} a.
Arguments Raise {A} e.

Definition is_ok {A} (r : Res A) : bool :=
  match r with Ok _ => true | Raise _ => false end.

(** *** strings *)

Definition slash : ascii := "/"%char.
Definition dot : ascii := "."%char.

(** [s.rfind(c)] with the scan position made explicit: the greatest index
    of [c] in [s], counted from [i], or [-1]. *)
Fixpoint rfind_from (c : ascii) (s : string) (i : Z) : Z :=
  match s with
  | EmptyString => -1
  | String a r =>
      let k := rfind_from c r (i + 1) in
      if 0 <=? k then k else if Ascii.eqb a c then i else -1
  end.

Definition rfind (c : ascii) (s : string) : Z := rfind_from c s 0.

(** [s[:i]] and [s[i:]] for [0 <= i]. *)
Definition take_str (i : Z) (s : string) : string :=
  String.substring 0 (Z.to_nat i) s.
Definition drop_str (i : Z) (s : string) : string :=
  String.substring (Z.to_nat i) (String.length s - Z.to_nat i) s.

(** [s.rstrip(c)] *)
Fixpoint rstrip (c : ascii) (s : string) : string :=
  match s with
  | EmptyString => EmptyString
  | String a r =>
      match rstrip c r with
      | EmptyString => if Ascii.eqb a c then EmptyString else String a EmptyString
      | r' => String a r'
      end
  end.

(** [s == c * len(s)] *)
Fixpoint all_char (c : ascii) (s : string) : bool :=
  match s with
  | EmptyString => true
  | String a r => Ascii.eqb a c && all_char c r
  end.

(** [posixpath.dirname]:
<<
    i = p.rfind(sep) + 1
    head = p[:i]
    if head and head != sep*len(head):
        head = head.rstrip(sep)
    return head
>> *)
Definition dirname (p : string) : string :=
  let i := rfind slash p + 1 in
  let head := take_str i p in
  if negb (String.eqb head "") && negb (all_char slash head)
  then rstrip slash head
  else head.

(** [posixpath.basename]: [i = p.rfind(sep) + 1; return p[i:]] *)
Definition basename (p : string) : string :=
  let i := rfind slash p + 1 in
  drop_str i p.

(** [str(n)] for an [int] *)
Definition str_of_int (n : Z) : string :=
  NilZero.string_of_int (Z.to_int n).

(** [x in xs] for a list of strings, and for a list of ints *)
Definition str_in (x : string) (xs : list string) : bool :=
  existsb (String.eqb x) xs.
Definition int_in (x : Z) (xs : list Z) : bool :=
  existsb (Z.eqb x) xs.

End Py.
Export Py.


(* ===================================================================== *)
(** ** Interpreter state, environment and the monad *)
(* ===================================================================== *)

(** Objects have identity.  [DistributedLogger] instances and [logging]
    handlers are allocated from one counter; an identifier is the object's
    address. *)
Definition ObjId := nat.
Definition HandlerId := nat.

(** A [logging.Logger] is identified by its place in the manager: the root
    logger, or the logger registered under a name. *)
Inductive LoggerRef :=
| RootLogger
| Named (n : string).

#[global] Instance LoggerRef_eq_dec : EqDecision LoggerRef.
Proof. solve_decision. Defined.

#[global] Instance LoggerRef_countable : Countable LoggerRef.
Proof.
  refine (inj_countable'
            (fun r => match r with RootLogger => None | Named n => Some n end)
            (fun o => match o with None => RootLogger | Some n => Named n end) _).
  by intros [].
Defined.

Definition ref_name (r : LoggerRef) : string :=
  match r with RootLogger => "root" | Named n => n end.

(** [logging.Formatter(fmt, datefmt=...)] *)
Record Formatter := mkFormatter { fmt : string; datefmt : option string }.

Inductive HandlerKind :=
| RichHandler
| StreamHandler
| FileHandler (filename mode : string).

(** A handler object: its class, its own threshold and its formatter. *)
Record Handler := mkHandler {
  h_kind : HandlerKind;
  h_level : Z;
  h_formatter : option Formatter }.

(** The attributes of a [logging.Logger] the class reads or writes. *)
Record PyLogger := mkLogger {
  lg_level : Z;
  lg_handlers : list HandlerId;
  lg_propagate : bool }.

Record LogRecord := mkRecord {
  rec_name : string;
  rec_levelno : Z;
  rec_msg : string }.

(** Observable effects, in the order they happen. *)
Inductive Event :=
| EvMakedirs (d : string)
| EvOpen (path mode : string)
| EvEmit (h : HandlerId) (r : LogRecord)
| EvLastResort (r : LogRecord)
| EvFlush (h : HandlerId).

(** The fields of an initialised [DistributedLogger]. *)
Record DistLogger := mkDist { _name : string; _logger : LoggerRef }.

Record World := mkWorld {
  instances : gmap string ObjId;        (* DistributedLogger.__instances *)
  objs : gmap ObjId DistLogger;         (* initialised instances *)
  loggers : gmap LoggerRef PyLogger;    (* the logging manager *)
  hheap : gmap HandlerId Handler;       (* handler objects *)
  next_id : nat;                        (* allocator *)
  events : list Event }.                (* effects so far *)

(** Modelled from the spec: the group identifier [ParallelMode] of
    [colossalai.context.parallel_mode], which is not under [src/].  The spec
    describes it as "a tag distinguishing which parallel dimension (e.g.,
    GLOBAL, data-parallel, tensor-parallel) a rank lookup applies to". *)
Inductive ParallelMode :=
| GLOBAL
| Group (tag : string).

(** Modelled from the spec: the rank-resolution collaborator
    [colossalai.core.global_context], which is not under [src/].  The class
    calls three of its methods; each is taken as given.  A rank lookup
    returns a rank or raises (the "not-initialized signal" of the spec). *)
Record ParallelContext := mkContext {
  is_initialized : ParallelMode -> bool;
  get_global_rank : Res Z;
  get_local_rank : ParallelMode -> Res Z }.

(** The operating system decides whether a directory can be created and a
    file opened; the decision may depend on what happened before. *)
Record OSModel := mkOS {
  makedirs_error : string -> list Event -> option PyExn;
  open_error : string -> string -> list Event -> option PyExn }.

Record Env := mkEnv { global_context : ParallelContext; os : OSModel }.

Definition M (A : Type) : Type := Env -> World -> Res A * World.

Definition ret {A} (a : A) : M A := fun _ w => (Ok a, w).

Definition bind {A B} (m : M A) (k : A -> M B) : M B :=
  fun env w =>
    match m env w with
    | (Ok a, w') => k a env w'
    | (Raise e, w') => (Raise e, w')
    end.

Definition raise {A} (c : ExnClass) (msg : string) : M A :=
  fun _ w => (Raise (mkExn c msg), w).

Definition lift {A} (r : Res A) : M A := fun _ w => (r, w).

Definition ask : M Env := fun env w => (Ok env, w).
Definition get : M World := fun _ w => (Ok w, w).
Definition modify (f : World -> World) : M unit := fun _ w => (Ok tt, f w).

Declare Scope py_scope.
Delimit Scope py_scope with py.
Notation "x <- m ;; k" := (bind m (fun x => k))
  (at level 100, m at next level, right associativity) : py_scope.
Notation "m ;;; k" := (bind m (fun _ => k))
  (at level 100, right associativity) : py_scope.
Local Open Scope py_scope.

(** [assert cond, msg] *)
Definition py_assert (cond : bool) (msg : string) : M unit :=
  if cond then ret tt else raise AssertionError msg.

(** [for x in xs: body(x)] *)
Fixpoint for_each {X} (xs : list X) (body : X -> M unit) : M unit :=
  match xs with
  | [] => ret tt
  | x :: rest => body x ;;; for_each rest body
  end.

Definition tell (evs : list Event) : M unit :=
  modify (fun w => mkWorld (instances w) (objs w) (loggers w) (hheap w)
                           (next_id w) (events w ++ evs)).

(** Object allocation ([object.__new__]): a fresh address. *)
Definition alloc : M nat :=
  fun _ w => (Ok (next_id w),
              mkWorld (instances w) (objs w) (loggers w) (hheap w)
                      (S (next_id w)) (events w)).

(* ===================================================================== *)
(** ** The fragment of [os] and [logging] the class calls *)
(* ===================================================================== *)

Module Os.

(** [os.makedirs(d, exist_ok=True)].  For the empty path the final
    [mkdir('')] raises [FileNotFoundError] whatever the file system holds,
    and [exist_ok] does not cover it (the empty path is not a directory).
    For every other path the operating system decides. *)
Definition makedirs (d : string) : M unit :=
  if String.eqb d "" then
    raise FileNotFoundError "[Errno 2] No such file or directory"
  else
    env <- ask ;; w <- get ;;
    match makedirs_error (os env) d (events w) with
    | Some e => lift (Raise e)
    | None => tell [EvMakedirs d]
    end.

(** [open(path, mode)], as performed by [logging.FileHandler.__init__]. *)
Definition open (path mode : string) : M unit :=
  env <- ask ;; w <- get ;;
  match open_error (os env) path mode (events w) with
  | Some e => lift (Raise e)
  | None => tell [EvOpen path mode]
  end.

End Os.

Module Logging.

Definition NOTSET : Z := 0.
Definition DEBUG : Z := 10.
Definition INFO : Z := 20.
Definition WARNING : Z := 30.
Definition ERROR : Z := 40.
Definition CRITICAL : Z := 50.

(** [getattr(logging, name)] for the integer level constants of the module.
    The class only evaluates it after [_check_valid_logging_level], so no
    other attribute of the module is ever requested. *)
Definition getattr_level (name : string) : M Z :=
  if String.eqb name "INFO" then ret INFO
  else if String.eqb name "DEBUG" then ret DEBUG
  else if String.eqb name "WARNING" then ret WARNING
  else if String.eqb name "ERROR" then ret ERROR
  else if String.eqb name "CRITICAL" then ret CRITICAL
  else if String.eqb name "NOTSET" then ret NOTSET
  else raise AttributeError name.

(** A logger that was never configured: level [NOTSET], no handler,
    propagating.  The manager creates loggers lazily, and until somebody
    configures it a logger is indistinguishable from this one, so a name
    absent from [loggers] stands for it. *)
Definition fresh_logger : PyLogger := mkLogger NOTSET [] true.

Definition logger_state (r : LoggerRef) (w : World) : PyLogger :=
  default fresh_logger (loggers w !! r).

(** [logging.getLogger(name)]: the root logger for an empty name or the
    root's own name, the logger registered under [name] otherwise. *)
Definition getLogger (name : string) : M LoggerRef :=
  ret (if String.eqb name "" || String.eqb name "root"
       then RootLogger else Named name).

Definition update_logger (r : LoggerRef) (f : PyLogger -> PyLogger) : M unit :=
  modify (fun w =>
    mkWorld (instances w) (objs w)
            (<[r := f (logger_state r w)]> (loggers w))
            (hheap w) (next_id w) (events w)).

(** [logger.setLevel(lvl)] *)
Definition setLevel (r : LoggerRef) (lvl : Z) : M unit :=
  update_logger r (fun lg => mkLogger lvl (lg_handlers lg) (lg_propagate lg)).

(** [logger.propagate = b] *)
Definition set_propagate (r : LoggerRef) (b : bool) : M unit :=
  update_logger r (fun lg => mkLogger (lg_level lg) (lg_handlers lg) b).

(** [logger.addHandler(h)]: [if not (h in self.handlers): append] *)
Definition addHandler (r : LoggerRef) (h : HandlerId) : M unit :=
  update_logger r (fun lg =>
    if bool_decide (h ∈ lg_handlers lg) then lg
    else mkLogger (lg_level lg) (lg_handlers lg ++ [h]) (lg_propagate lg)).

(** [logger.handlers] *)
Definition handlers (r : LoggerRef) : M (list HandlerId) :=
  w <- get ;; ret (lg_handlers (logger_state r w)).

Definition update_handler (h : HandlerId) (f : Handler -> Handler) : M unit :=
  modify (fun w =>
    mkWorld (instances w) (objs w) (loggers w)
            (alter f h (hheap w)) (next_id w) (events w)).

(** [handler.setLevel(lvl)] and [handler.setFormatter(f)] *)
Definition Handler_setLevel (h : HandlerId) (lvl : Z) : M unit :=
  update_handler h (fun hd => mkHandler (h_kind hd) lvl (h_formatter hd)).

Definition Handler_setFormatter (h : HandlerId) (f : Formatter) : M unit :=
  update_handler h (fun hd => mkHandler (h_kind hd) (h_level hd) (Some f)).

(** [handler.flush()] *)
Definition Handler_flush (h : HandlerId) : M unit := tell [EvFlush h].

Definition new_handler (h : HandlerId) (k : HandlerKind) : M unit :=
  modify (fun w =>
    mkWorld (instances w) (objs w) (loggers w)
            (<[h := mkHandler k NOTSET None]> (hheap w))
            (next_id w) (events w)).

(** [logging.FileHandler(path, mode)]: the file is opened at construction
    ([delay] is false), and a failure to open it leaves no handler. *)
Definition FileHandler_new (path mode : string) : M HandlerId :=
  h <- alloc ;;
  Os.open path mode ;;;
  new_handler h (FileHandler path mode) ;;;
  ret h.

(** [logging.StreamHandler()] (on [sys.stderr]) *)
Definition StreamHandler_new : M HandlerId :=
  h <- alloc ;;
  new_handler h StreamHandler ;;;
  ret h.

(** The dotted prefixes of a logger name, longest first, as the manager's
    [_fixupParents] enumerates them:
<<
      i = name.rfind(".")
      while i > 0: substr = name[:i]; ...; i = name.rfind(".", 0, i - 1)
>> *)
Fixpoint prefixes_from (fuel : nat) (name : string) (i : Z) : list string :=
  match fuel with
  | O => []
  | S f =>
      if 0 <? i
      then take_str i name :: prefixes_from f name (rfind dot (take_str (i - 1) name))
      else []
  end.

Definition parent_names (name : string) : list string :=
  prefixes_from (String.length name) name (rfind dot name).

(** The loggers from [r] up to the root, following [parent].  A dotted
    prefix that was never configured is a fresh logger; a prefix spelled
    like the root's name is only a place holder in the manager. *)
Definition chain (r : LoggerRef) : list LoggerRef :=
  match r with
  | RootLogger => [RootLogger]
  | Named n =>
      Named n
      :: map Named (List.filter (fun p => negb (String.eqb p "root")) (parent_names n))
      ++ [RootLogger]
  end.

(** [Logger.getEffectiveLevel]: the first non-zero level up the chain. *)
Fixpoint effective_level (w : World) (c : list LoggerRef) : Z :=
  match c with
  | [] => NOTSET
  | r :: rest =>
      let l := lg_level (logger_state r w) in
      if l =? 0 then effective_level w rest else l
  end.

(** [Logger.isEnabledFor(level)] (no logger is [disabled] and
    [logging.disable] was never called: the class does neither). *)
Definition isEnabledFor (w : World) (r : LoggerRef) (level : Z) : bool :=
  effective_level w (chain r) <=? level.

Definition accepts (w : World) (level : Z) (h : HandlerId) : bool :=
  match hheap w !! h with
  | Some hd => h_level hd <=? level
  | None => false
  end.

(** [Logger.callHandlers]: the handlers that receive a record of severity
    [level], and the number of handlers met on the way ([found]). *)
Fixpoint call_targets (w : World) (c : list LoggerRef) (level : Z)
  : list HandlerId * nat :=
  match c with
  | [] => ([], O)
  | r :: rest =>
      let lg := logger_state r w in
      let here := List.filter (accepts w level) (lg_handlers lg) in
      let met := List.length (lg_handlers lg) in
      if lg_propagate lg then
        let '(up, found) := call_targets w rest level in
        (here ++ up, (met + found)%nat)
      else (here, met)
  end.

(** [logger.log(level, msg)] as the leveled methods perform it: the level
    gate, then the record handed to every accepting handler up the chain;
    with no handler at all, [logging.lastResort] takes warnings and above. *)
Definition log (r : LoggerRef) (level : Z) (msg : string) : M unit :=
  w <- get ;;
  if isEnabledFor w r level then
    let record := mkRecord (ref_name r) level msg in
    let '(targets, found) := call_targets w (chain r) level in
    tell (map (fun h => EvEmit h record) targets
          ++ (if (found =? 0)%nat && (WARNING <=? level)
              then [EvLastResort record] else []))
  else ret tt.

(** [getattr(logger, name)] for the four method names [_log] is called
    with; the result is the method, given by its severity. *)
Definition getattr_method (name : string) : M Z :=
  if String.eqb name "info" then ret INFO
  else if String.eqb name "warning" then ret WARNING
  else if String.eqb name "debug" then ret DEBUG
  else if String.eqb name "error" then ret ERROR
  else raise AttributeError name.

End Logging.

(* ===================================================================== *)
(** ** [class DistributedLogger] *)
(* ===================================================================== *)

(** One entry of [inspect.stack()]: the fields [__get_call_info] reads,
    [[1]] the file name, [[2]] the line number, [[3]] the function name. *)
Record FrameInfo := mkFrame {
  frame_filename : string;
  frame_lineno : Z;
  frame_function : string }.

(** The [path] argument of [log_to_file]: a [str], a [pathlib.Path] (given
    by its [str()]), or an object of another type (given by its type). *)
Inductive PathArg :=
| PStr (s : string)
| PPath (s : string)
| POther (type_name : string).

Module DistributedLogger.

Import Logging.

Definition _FORMAT : string :=
  "%(name)s - %(levelname)s - %(asctime)s - %(message)s".

(** The effect of the module-level [logging.basicConfig(level=logging.INFO,
    format=_FORMAT, handlers=[RichHandler(...)])] on a fresh interpreter:
    the root logger at [INFO] with one handler, formatted with [_FORMAT];
    [__instances = dict()]. *)
Definition initial_world : World :=
  mkWorld ∅ ∅
          {[ RootLogger := mkLogger INFO [O] true ]}
          {[ O := mkHandler RichHandler NOTSET (Some (mkFormatter _FORMAT None)) ]}
          1 [].

(** [self._logger]: an instance whose [__init__] did not complete has no
    such attribute. *)
Definition self_logger (self : ObjId) : M LoggerRef :=
  w <- get ;;
  match objs w !! self with
  | Some d => ret (_logger d)
  | None => raise AttributeError "_logger"
  end.

Definition set_fields (self : ObjId) (d : DistLogger) : M unit :=
  modify (fun w =>
    mkWorld (instances w) (<[self := d]> (objs w)) (loggers w)
            (hheap w) (next_id w) (events w)).

(** [DistributedLogger.__instances[name] = self] *)
Definition register (name : string) (self : ObjId) : M unit :=
  modify (fun w =>
    mkWorld (<[name := self]> (instances w)) (objs w) (loggers w)
            (hheap w) (next_id w) (events w)).

Definition duplicate_msg : string :=
  "Logger with the same name has been created, you should use colossalai.logging.get_dist_logger".

Definition __init__ (self : ObjId) (name : string) : M unit :=
  w <- get ;;
  if bool_decide (is_Some (instances w !! name)) then
    raise Exception duplicate_msg
  else
    lg <- getLogger name ;;
    set_fields self (mkDist name lg) ;;;
    hs <- handlers lg ;;
    for_each hs (fun handler =>
      let formatter := mkFormatter _FORMAT (Some "%Y-%m-%d %H:%M:%S") in
      Handler_setFormatter handler formatter) ;;;
    register name self.

(** [DistributedLogger(name=name)]: allocate, then initialise. *)
Definition new (name : string) : M ObjId :=
  self <- alloc ;;
  __init__ self name ;;;
  ret self.

Definition get_instance (name : string) : M ObjId :=
  w <- get ;;
  match instances w !! name with
  | Some existing => ret existing
  | None =>
      logger <- new name ;;
      ret logger
  end.

(** [inspect.stack()] is the interpreter's answer at the call: the list of
    frames, innermost first, or an exception.  [stack[2]] is the caller of
    the leveled method. *)
Definition __get_call_info (stack : Res (list FrameInfo))
  : M (string * Z * string) :=
  st <- lift stack ;;
  match st !! 2%nat with
  | Some fr =>
      let fn := basename (frame_filename fr) in
      let ln := frame_lineno fr in
      let func := frame_function fr in
      ret (fn, ln, func)
  | None => raise IndexError "list index out of range"
  end.

Definition valid_levels : list string := ["INFO"; "DEBUG"; "WARNING"; "ERROR"].

Definition _check_valid_logging_level (level : string) : M unit :=
  py_assert (str_in level valid_levels) "found invalid logging level".

Definition set_level (self : ObjId) (level : string) : M unit :=
  _check_valid_logging_level level ;;;
  lg <- self_logger self ;;
  v <- getattr_level level ;;
  setLevel lg v.

(** [log_to_file] from line 105 on: what a process on the rank-0 path
    does after the rank test. *)
Definition log_to_file_rank0 (self : ObjId) (path : PathArg) (mode level : string)
  : M unit :=
  path <- match path with
          | PPath s => ret s
          | PStr s => ret s
          | POther ty =>
              raise AssertionError
                (String.append "expected argument path to be type str, but got " ty)
          end ;;
  Os.makedirs (dirname path) ;;;
  file_handler <- FileHandler_new path mode ;;
  v <- getattr_level level ;;
  Handler_setLevel file_handler v ;;;
  let formatter := mkFormatter _FORMAT (Some "%Y-%m-%d,%H:%M:%S") in
  Handler_setFormatter file_handler formatter ;;;
  lg <- self_logger self ;;
  set_propagate lg false ;;;
  lg <- self_logger self ;;
  addHandler lg file_handler ;;;
  stream_handler <- StreamHandler_new ;;
  Handler_setLevel stream_handler INFO ;;;
  Handler_setFormatter stream_handler formatter ;;;
  lg <- self_logger self ;;
  addHandler lg stream_handler.

Definition log_to_file (self : ObjId) (path : PathArg) (mode level : string)
  : M unit :=
  _check_valid_logging_level level ;;;
  env <- ask ;;
  rank <- (if negb (is_initialized (global_context env) GLOBAL)
           then ret 0
           else lift (get_global_rank (global_context env))) ;;
  if negb (rank =? 0) then ret tt
  else log_to_file_rank0 self path mode level.

Definition flush (self : ObjId) : M unit :=
  lg <- self_logger self ;;
  hs <- handlers lg ;;
  for_each hs Handler_flush.

(** [getattr(self._logger, level)(message)] *)
Definition call_logger (self : ObjId) (level message : string) : M unit :=
  lg <- self_logger self ;;
  severity <- getattr_method level ;;
  log lg severity message.

Definition _log (self : ObjId) (level message : string)
  (parallel_mode : ParallelMode) (ranks : option (list Z)) : M unit :=
  match ranks with
  | None =>
      call_logger self level message ;;;
      flush self
  | Some ranks =>
      env <- ask ;;
      local_rank <- lift (get_local_rank (global_context env) parallel_mode) ;;
      if int_in local_rank ranks then
        call_logger self level message ;;;
        flush self
      else ret tt
  end.

(** ["[{}, {}, {}] {}".format(fn, ln, func, message)] *)
Definition format_message (ci : string * Z * string) (message : string)
  : string :=
  let '(fn, ln, func) := ci in
  String.concat ""
    ["["; fn; ", "; str_of_int ln; ", "; func; "] "; message].

Definition info (self : ObjId) (message : string)
  (parallel_mode : ParallelMode) (ranks : option (list Z))
  (stack : Res (list FrameInfo)) : M unit :=
  ci <- __get_call_info stack ;;
  let message := format_message ci message in
  _log self "info" message parallel_mode ranks.

Definition warning (self : ObjId) (message : string)
  (parallel_mode : ParallelMode) (ranks : option (list Z))
  (stack : Res (list FrameInfo)) : M unit :=
  ci <- __get_call_info stack ;;
  let message := format_message ci message in
  _log self "warning" message parallel_mode ranks.

Definition debug (self : ObjId) (message : string)
  (parallel_mode : ParallelMode) (ranks : option (list Z))
  (stack : Res (list FrameInfo)) : M unit :=
  ci <- __get_call_info stack ;;
  let message := format_message ci message in
  _log self "debug" message parallel_mode ranks.

Definition error (self : ObjId) (message : string)
  (parallel_mode : ParallelMode) (ranks : option (list Z))
  (stack : Res (list FrameInfo)) : M unit :=
  ci <- __get_call_info stack ;;
  let message := format_message ci message in
  _log self "error" message parallel_mode ranks.

End DistributedLogger.

(* ===================================================================== *)
(** ** Programs over the class: the calls a client can make *)
(* ===================================================================== *)

Import Logging DistributedLogger.
Local Open Scope py_scope.

(** The four leveled methods. *)
Inductive Leveled := LvDebug | LvInfo | LvWarning | LvError.

Definition leveled (l : Leveled) :=
  match l with
  | LvDebug => debug
  | LvInfo => info
  | LvWarning => warning
  | LvError => error
  end.

Definition method_name (l : Leveled) : string :=
  match l with
  | LvDebug => "debug"
  | LvInfo => "info"
  | LvWarning => "warning"
  | LvError => "error"
  end.

Definition severity (l : Leveled) : Z :=
  match l with
  | LvDebug => DEBUG
  | LvInfo => INFO
  | LvWarning => WARNING
  | LvError => ERROR
  end.

(** One call on the public surface of the class. *)
Inductive Call :=
| CGetInstance (name : string)
| CConstruct (name : string)
| CSetLevel (self : ObjId) (level : string)
| CLogToFile (self : ObjId) (path : PathArg) (mode level : string)
| CFlush (self : ObjId)
| CLeveled (l : Leveled) (self : ObjId) (message : string)
    (parallel_mode : ParallelMode) (ranks : option (list Z))
    (stack : Res (list FrameInfo)).

Definition void {A} (m : M A) : M unit := _ <- m ;; ret tt.

Definition run_call (c : Call) : M unit :=
  match c with
  | CGetInstance name => void (get_instance name)
  | CConstruct name => void (new name)
  | CSetLevel self level => set_level self level
  | CLogToFile self path mode level => log_to_file self path mode level
  | CFlush self => flush self
  | CLeveled l self message pm ranks stack =>
      leveled l self message pm ranks stack
  end.

(** A client program: calls in sequence, each exception caught by the
    client, so that the next call runs in the state the failed one left. *)
Fixpoint run_calls (cs : list Call) (env : Env) (w : World) : World :=
  match cs with
  | [] => w
  | c :: rest => run_calls rest env (snd (run_call c env w))
  end.

(** *** The allocator invariant

    Every handler a logger lists was allocated: its address is below the
    allocator's next address. *)
Definition handlers_allocated (w : World) : Prop :=
  forall r lg h, loggers w !! r = Some lg -> h ∈ lg_handlers lg ->
                 (h < next_id w)%nat.

(** The severity-independent reading of the rank gate of [_log]: what the
    call does once it emits. *)
Definition emit_and_flush (l : Leveled) (self : ObjId) (text : string) : M unit :=
  call_logger self (method_name l) text ;;; flush self.

(** *** Fixtures: contexts, operating systems, stacks *)

(** A process of rank [g] in [GLOBAL] and rank [r] in every other group,
    all groups initialised. *)
Definition ctx_ranked (g r : Z) : ParallelContext :=
  mkContext (fun _ => true) (Ok g)
            (fun pm => match pm with GLOBAL => Ok g | Group _ => Ok r end).

(** A process on which no group is initialised: the context has no rank to
    give and signals it. *)
Definition ctx_uninitialized : ParallelContext :=
  mkContext (fun _ => false)
            (Raise (mkExn KeyError "ParallelMode.GLOBAL"))
            (fun _ => Raise (mkExn KeyError "parallel mode is not initialized")).

(** An operating system on which every directory can be created and every
    file opened. *)
Definition os_permissive : OSModel :=
  mkOS (fun _ _ => None) (fun _ _ _ => None).

(** A POSIX file system, as far as its refusals do not depend on the user:
    no directory can be created below the device [/dev/null], and a path
    that ends in a separator names a directory, which cannot be opened as a
    file. *)
Definition os_posix : OSModel :=
  mkOS (fun d _ =>
          if String.prefix "/dev/null/" d
          then Some (mkExn NotADirectoryError "[Errno 20] Not a directory")
          else None)
       (fun path _ _ =>
          if String.eqb (basename path) ""
          then Some (mkExn IsADirectoryError "[Errno 21] Is a directory")
          else None).

(** The stack seen by [__get_call_info] when [train] in [train.py] calls a
    leveled method at line 42. *)
Definition stack_from_train (method : string) : Res (list FrameInfo) :=
  Ok [ mkFrame "/repo/colossalai/logging/logger.py" 64 "__get_call_info";
       mkFrame "/repo/colossalai/logging/logger.py" 145 method;
       mkFrame "/home/u/job/train.py" 42 "train" ].

(** The stack when the leveled method was entered without a Python caller
    (called from an embedding host): only the two frames of the class. *)
Definition stack_no_caller (method : string) : Res (list FrameInfo) :=
  Ok [ mkFrame "/repo/colossalai/logging/logger.py" 64 "__get_call_info";
       mkFrame "/repo/colossalai/logging/logger.py" 145 method ].

(** The world after [get_instance "train"] on a fresh interpreter. *)
Definition world_train : World :=
  snd (get_instance "train" (mkEnv (ctx_ranked 0 0) os_permissive) initial_world).

(** *** Vocabulary of the statements *)

(** The process is on the rank-0 path of [log_to_file]: the [GLOBAL] group
    is not initialised, or it is and the global rank is 0. *)
Definition rank0_path (ctx : ParallelContext) : Prop :=
  is_initialized ctx GLOBAL = false
  \/ (is_initialized ctx GLOBAL = true /\ get_global_rank ctx = Ok 0).

(** The process has a global rank, and it is not 0. *)
Definition nonzero_rank (ctx : ParallelContext) : Prop :=
  is_initialized ctx GLOBAL = true
  /\ exists r, get_global_rank ctx = Ok r /\ r <> 0.

(** The file formatter of [log_to_file]. *)
Definition file_formatter : Formatter :=
  mkFormatter _FORMAT (Some "%Y-%m-%d,%H:%M:%S").

(** The world in which [log_to_file] leaves a logger [lg] after it created
    the directory, opened [p] in [mode], and attached a file handler of
    threshold [v] and a console handler of threshold [INFO]. *)
Definition attached_world (w : World) (lg : LoggerRef) (p mode : string) (v : Z)
  : World :=
  let fh := next_id w in
  let sh := S (next_id w) in
  let old := logger_state lg w in
  mkWorld (instances w) (objs w)
    (<[lg := mkLogger (lg_level old) (lg_handlers old ++ [fh; sh]) false]> (loggers w))
    (<[sh := mkHandler StreamHandler INFO (Some file_formatter)]>
       (<[fh := mkHandler (FileHandler p mode) v (Some file_formatter)]> (hheap w)))
    (S (S (next_id w)))
    (events w ++ [EvMakedirs (dirname p); EvOpen p mode]).

Definition is_stream (w : World) (h : HandlerId) : bool :=
  match hheap w !! h with
  | Some (mkHandler StreamHandler _ _) => true
  | _ => false
  end.

(** The console ([StreamHandler]) handlers a logger lists. *)
Definition console_handlers (w : World) (lg : LoggerRef) : list HandlerId :=
  List.filter (is_stream w) (lg_handlers (logger_state lg w)).

(** The registry only grows: what is registered stays registered. *)
Definition registry_kept (w w' : World) : Prop :=
  forall n o, instances w !! n = Some o -> instances w' !! n = Some o.

(** The string behind a [str] or [Path] argument. *)
Definition is_path (path : PathArg) (p : string) : Prop :=
  path = PStr p \/ path = PPath p.

(** The state after [logger.setLevel(v)] on logger [lg]. *)
Definition level_set (w : World) (lg : LoggerRef) (v : Z) : World :=
  let old := logger_state lg w in
  mkWorld (instances w) (objs w)
          (<[lg := mkLogger v (lg_handlers old) (lg_propagate old)]> (loggers w))
          (hheap w) (next_id w) (events w).

(** Computations that do not read the environment. *)
Definition env_free {A} (m : M A) : Prop :=
  forall env env' w, m env w = m env' w.

(** Computations whose final state is related to the initial one by [R],
    whether they return or raise. *)
Definition keeps (R : World -> World -> Prop) {A} (m : M A) : Prop :=
  forall env w, R w (snd (m env w)).

(** The registry is left exactly as it was. *)
Definition same_registry (w w' : World) : Prop := instances w' = instances w.

(** The handler heap after [handler.setFormatter(f)] on each of [hs]. *)
Definition formatted (f : Formatter) (hs : list HandlerId)
  (hp : gmap HandlerId Handler) : gmap HandlerId Handler :=
  foldl (fun acc h =>
           alter (fun hd => mkHandler (h_kind hd) (h_level hd) (Some f)) h acc)
        hp hs.

(** The state after a successful [__init__ self name]. *)
Definition initialised (w : World) (self : ObjId) (name : string) : World :=
  let lg := if String.eqb name "" || String.eqb name "root"
            then RootLogger else Named name in
  mkWorld (<[name := self]> (instances w))
          (<[self := mkDist name lg]> (objs w))
          (loggers w)
          (formatted (mkFormatter _FORMAT (Some "%Y-%m-%d %H:%M:%S"))
                     (lg_handlers (logger_state lg w)) (hheap w))
          (next_id w) (events w).

(** The state after [object.__new__]. *)
Definition allocated (w : World) : World :=
  mkWorld (instances w) (objs w) (loggers w) (hheap w) (S (next_id w)) (events w).

(** What [call_logger] hands to the handlers. *)
Definition emitted (w : World) (lg : LoggerRef) (level : Z) (text : string)
  : list Event :=
  if isEnabledFor w lg level then
    let record := mkRecord (ref_name lg) level text in
    let '(targets, found) := call_targets w (chain lg) level in
    map (fun h => EvEmit h record) targets
    ++ (if (found =? 0)%nat && (WARNING <=? level) then [EvLastResort record] else [])
  else [].

(** The operating system lets the call create directory [d], and then open
    [p] in [mode]. *)
Definition can_makedirs (env : Env) (w : World) (d : string) : Prop :=
  d <> "" /\ makedirs_error (os env) d (events w) = None.


(** Handler [h] receives the records of severity [level] logged on [lg]. *)
Definition receives (w : World) (lg : LoggerRef) (level : Z) (h : HandlerId)
  : Prop :=
  In h (fst (call_targets w (chain lg) level)).

(** The state after an emission on logger [lg]: the record handed to the
    handlers, then one flush for each handler of [lg] itself. *)
Definition emission_world (w : World) (lg : LoggerRef) (level : Z) (text : string)
  : World :=
  mkWorld (instances w) (objs w) (loggers w) (hheap w) (next_id w)
          (events w ++ emitted w lg level text
           ++ map EvFlush (lg_handlers (logger_state lg w))).

(** [keeps], from the states that satisfy [P]. *)
Definition keeps_from (P : World -> Prop) (R : World -> World -> Prop)
  {A} (m : M A) : Prop :=
  forall env w, P w -> R w (snd (m env w)).

(** One step of the allocator: addresses are never reused, and the
    allocator invariant survives. *)
Definition alloc_step (w w' : World) : Prop :=
  (next_id w <= next_id w')%nat
  /\ (handlers_allocated w -> handlers_allocated w').

(** Address [h] has been handed out. *)
Definition is_allocated (h : nat) (w : World) : Prop := (h < next_id w)%nat.


(** *** Vocabulary of the further properties *)

(** The logger [logging.getLogger(name)] returns. *)
Definition logger_of (name : string) : LoggerRef :=
  if String.eqb name "" || String.eqb name "root" then RootLogger else Named name.

(** The registry is sound: a registered name maps to an initialised
    instance that carries this name and wraps the logger of this name, and
    every initialised instance was allocated. *)
Definition registry_ok (w : World) : Prop :=
  (forall n o, instances w !! n = Some o ->
               objs w !! o = Some (mkDist n (logger_of n)))
  /\ (forall o d, objs w !! o = Some d -> (o < next_id w)%nat).

(** The instances are left as they were, and no address is taken back. *)
Definition same_objects (w w' : World) : Prop :=
  instances w' = instances w /\ objs w' = objs w
  /\ (next_id w <= next_id w')%nat.

(** Nothing changed but the output, which only grew. *)
Definition only_output (w w' : World) : Prop :=
  instances w' = instances w /\ objs w' = objs w /\ loggers w' = loggers w
  /\ hheap w' = hheap w /\ next_id w' = next_id w
  /\ exists evs, events w' = events w ++ evs.

(** Every logger has the level it had. *)
Definition same_levels (w w' : World) : Prop :=
  forall r, lg_level (logger_state r w') = lg_level (logger_state r w).

(** [handler.setFormatter(f)] on a handler object. *)
Definition with_formatter (f : Formatter) (hd : Handler) : Handler :=
  mkHandler (h_kind hd) (h_level hd) (Some f).

(** The formatter [__init__] installs. *)
Definition init_formatter : Formatter :=
  mkFormatter _FORMAT (Some "%Y-%m-%d %H:%M:%S").

(** The characters of a string. *)
Definition chars (s : string) : list ascii := list_ascii_of_string s.

(** A parallel context whose global-rank lookup raises although [GLOBAL]
    is initialised. *)
Definition ctx_rank_error : ParallelContext :=
  mkContext (fun _ => true)
            (Raise (mkExn KeyError "global rank"))
            (fun _ => Ok 0).

(** *** [flush] when a stream may refuse

    [logging.StreamHandler.flush] calls [stream.flush()] and lets its error
    through, and [DistributedLogger.flush] has no [try]: a handler whose
    stream refuses (a full disk, a closed descriptor) ends the loop.  Here
    the refusal is a parameter: [refuses h] is the error the flush of
    handler [h] raises, if any.  The [flush] of the class above is the case
    in which no stream refuses. *)
Module Fallible.

(** [handler.flush()] *)
Definition Handler_flush (refuses : HandlerId -> option PyExn) (h : HandlerId)
  : M unit :=
  match refuses h with
  | Some e => lift (Raise e)
  | None => tell [EvFlush h]
  end.

(** [DistributedLogger.flush], lines 123-125 *)
Definition flush (refuses : HandlerId -> option PyExn) (self : ObjId) : M unit :=
  lg <- self_logger self ;;
  hs <- handlers lg ;;
  for_each hs (Handler_flush refuses).

End Fallible.

(** The state after the handlers [hs] were flushed, in this order. *)
Definition flushed (w : World) (hs : list HandlerId) : World :=
  mkWorld (instances w) (objs w) (loggers w) (hheap w) (next_id w)
          (events w ++ map EvFlush hs).

(** A disk that is full for the file of handler [h]: flushing it raises. *)
Definition disk_full_for (h : HandlerId) : HandlerId -> option PyExn :=
  fun h' => if Nat.eqb h' h
            then Some (mkExn OSError "[Errno 28] No space left on device")
            else None.
(* ===================================================================== *)
(** ** Properties *)
(* ===================================================================== *)

(** *** The model at work *)

Example dirname_nested : dirname "/tmp/x/log.txt" = "/tmp/x".
Proof. reflexivity. Qed.

Example dirname_top : dirname "/log.txt" = "/".
Proof. reflexivity. Qed.

Example dirname_doubled : dirname "a//b" = "a".
Proof. reflexivity. Qed.

Example dirname_bare : dirname "log.txt" = "".
Proof. reflexivity. Qed.

Example basename_nested : basename "/home/u/job/train.py" = "train.py".
Proof. reflexivity. Qed.

Example basename_of_directory : basename "a/b/" = "".
Proof. reflexivity. Qed.

Example parents_dotted : parent_names "a.b.c" = ["a.b"; "a"].
Proof. reflexivity. Qed.

Example chain_train : chain (Named "train") = [Named "train"; RootLogger].
Proof. reflexivity. Qed.

Example get_instance_first :
  fst (get_instance "train" (mkEnv (ctx_ranked 0 0) os_permissive) initial_world)
  = Ok 1%nat.
Proof. reflexivity. Qed.

(** A first message on the fresh logger goes to the root's handler only,
    with the caller's location in front; the logger has no handler of its
    own to flush. *)
Example info_step_1 :
  events (snd (info 1%nat "step 1" GLOBAL None (stack_from_train "info")
                    (mkEnv (ctx_ranked 0 0) os_permissive) world_train))
  = [EvEmit 0%nat (mkRecord "train" 20 "[train.py, 42, train] step 1")].
Proof. vm_compute. reflexivity. Qed.

(** After a file sink is attached the record goes to the file and to the
    new console handler, no longer to the root, and both are flushed. *)
Example info_after_log_to_file :
  let env := mkEnv (ctx_ranked 0 0) os_permissive in
  let w := snd (log_to_file 1%nat (PStr "/tmp/x/log.txt") "a" "INFO" env world_train) in
  events (snd (info 1%nat "step 1" GLOBAL None (stack_from_train "info") env w))
  = [EvMakedirs "/tmp/x"; EvOpen "/tmp/x/log.txt" "a";
     EvEmit 2%nat (mkRecord "train" 20 "[train.py, 42, train] step 1");
     EvEmit 3%nat (mkRecord "train" 20 "[train.py, 42, train] step 1");
     EvFlush 2%nat; EvFlush 3%nat].
Proof. vm_compute. reflexivity. Qed.

(** A logger at [WARNING] drops [info] at the level gate; the flush that
    follows the call still happens. *)
Example info_below_threshold :
  let env := mkEnv (ctx_ranked 0 0) os_permissive in
  let w := snd (log_to_file 1%nat (PStr "/tmp/x/log.txt") "a" "INFO" env world_train) in
  let w := snd (set_level 1%nat "WARNING" env w) in
  events (snd (info 1%nat "step 1" GLOBAL None (stack_from_train "info") env w))
  = [EvMakedirs "/tmp/x"; EvOpen "/tmp/x/log.txt" "a"; EvFlush 2%nat; EvFlush 3%nat].
Proof. vm_compute. reflexivity. Qed.

(** *** Python helpers *)

Lemma str_in_In x xs : str_in x xs = true <-> In x xs.
Proof.
  unfold str_in. rewrite existsb_exists. split.
  - intros (y & Hy & E). apply String.eqb_eq in E. by subst.
  - intros H. exists x. split; [done | apply String.eqb_refl].
Qed.

Lemma str_in_not_In x xs : str_in x xs = false <-> ~ In x xs.
Proof. rewrite <- str_in_In. destruct (str_in x xs); split; congruence. Qed.

Lemma int_in_In x xs : int_in x xs = true <-> In x xs.
Proof.
  unfold int_in. rewrite existsb_exists. split.
  - intros (y & Hy & E). apply Z.eqb_eq in E. by subst.
  - intros H. exists x. split; [done | apply Z.eqb_refl].
Qed.

Lemma int_in_not_In x xs : int_in x xs = false <-> ~ In x xs.
Proof. rewrite <- int_in_In. destruct (int_in x xs); split; congruence. Qed.

(** A path without a separator has no directory part. *)
Lemma rfind_from_absent c s i :
  (forall a, In a (list_ascii_of_string s) -> a <> c) -> rfind_from c s i = -1.
Proof.
  revert i. induction s as [|a r IH]; intros i H; simpl; [done|].
  rewrite IH by (intros b Hb; apply H; simpl; auto).
  simpl. destruct (Ascii.eqb_spec a c) as [->|]; [|done].
  exfalso. apply (H c); simpl; auto.
Qed.

Lemma dirname_bare_name p :
  (forall a, In a (list_ascii_of_string p) -> a <> slash) -> dirname p = "".
Proof.
  intros H. unfold dirname, rfind. rewrite rfind_from_absent by done.
  simpl. unfold take_str. simpl. by destruct p.
Qed.

(** *** The level check *)

Lemma check_invalid level env w :
  ~ In level valid_levels ->
  _check_valid_logging_level level env w
  = (Raise (mkExn AssertionError "found invalid logging level"), w).
Proof.
  intros H. apply str_in_not_In in H.
  unfold _check_valid_logging_level, py_assert. by rewrite H.
Qed.

Lemma check_valid level env w :
  In level valid_levels -> _check_valid_logging_level level env w = (Ok tt, w).
Proof.
  intros H. apply str_in_In in H.
  unfold _check_valid_logging_level, py_assert. by rewrite H.
Qed.

(** After the check, [getattr(logging, level)] is one of the four ints. *)
Lemma getattr_level_valid level env w :
  In level valid_levels ->
  exists v, getattr_level level env w = (Ok v, w)
            /\ In v [INFO; DEBUG; WARNING; ERROR].
Proof.
  intros H. simpl in H.
  destruct H as [<-|[<-|[<-|[<-|[]]]]]; eexists; (split; [reflexivity|]); simpl; auto.
Qed.

(** The rank read by [log_to_file]. *)
Lemma rank0_path_rank ctx :
  rank0_path ctx ->
  (if negb (is_initialized ctx GLOBAL) then Ok 0 else get_global_rank ctx) = Ok 0.
Proof. intros [->|[-> ->]]; reflexivity. Qed.

(** *** C9, C10: [log_to_file] before it touches the logger *)

Lemma log_to_file_validates_first self path mode level env w :
  (~ In level valid_levels ->
   log_to_file self path mode level env w
   = (Raise (mkExn AssertionError "found invalid logging level"), w))
  /\ (In level valid_levels -> nonzero_rank (global_context env) ->
      log_to_file self path mode level env w = (Ok tt, w)).
Proof.
  split.
  - intros H. unfold log_to_file, bind at 1. by rewrite check_invalid.
  - intros Hv (Hi & r & Hr & Hne).
    unfold log_to_file, bind at 1. rewrite check_valid by done.
    unfold bind, ask, lift, ret. rewrite Hi, Hr. simpl.
    apply Z.eqb_neq in Hne. by rewrite Hne.
Qed.

(** On the rank-0 path with a valid level, [log_to_file] is its second
    half. *)
Lemma log_to_file_on_rank0 self path mode level env w :
  In level valid_levels ->
  rank0_path (global_context env) ->
  log_to_file self path mode level env w
  = log_to_file_rank0 self path mode level env w.
Proof.
  intros Hv H0.
  unfold log_to_file, bind at 1. rewrite check_valid by done.
  unfold bind at 1, ask. unfold bind at 1.
  replace ((if negb (is_initialized (global_context env) GLOBAL)
            then ret 0 else lift (get_global_rank (global_context env))) env w)
    with (@Ok Z 0, w)
    by (destruct H0 as [->|[-> ->]]; reflexivity).
  reflexivity.
Qed.

Lemma log_to_file_no_directory self path p mode level env w :
  In level valid_levels ->
  rank0_path (global_context env) ->
  is_path path p ->
  dirname p = "" ->
  log_to_file self path mode level env w
  = (Raise (mkExn FileNotFoundError "[Errno 2] No such file or directory"), w).
Proof.
  intros Hv H0 Hp Hd. rewrite log_to_file_on_rank0 by done.
  destruct Hp as [-> | ->]; unfold log_to_file_rank0, bind, ret; simpl;
    unfold Os.makedirs; rewrite Hd; reflexivity.
Qed.

(** *** C5: [set_level] *)

(** C5. [set_level] with a string outside INFO, DEBUG, WARNING, ERROR
    raises [AssertionError] at once and leaves the whole state, the logger's
    level included, as it was; with a string of that set it succeeds on
    every initialised logger and sets the level of the underlying logger to
    the constant of that name, changing nothing else. *)
Theorem set_level_validates self level env w :
  (~ In level valid_levels ->
   set_level self level env w
   = (Raise (mkExn AssertionError "found invalid logging level"), w))
  /\ (In level valid_levels ->
      forall d, objs w !! self = Some d ->
      exists v, getattr_level level env w = (Ok v, w)
                /\ set_level self level env w = (Ok tt, level_set w (_logger d) v)).
Proof.
  split.
  - intros H. unfold set_level, bind at 1. by rewrite check_invalid.
  - intros Hv d Hd.
    destruct (getattr_level_valid level env w Hv) as (v & Hg & _).
    exists v. split; [done|].
    unfold set_level, bind at 1. rewrite check_valid by done.
    unfold bind at 1, self_logger, bind at 1, get. rewrite Hd.
    unfold ret at 1. unfold bind at 1. rewrite Hg. reflexivity.
Qed.

Lemma set_level_validates_witness :
  set_level 1%nat "TRACE" (mkEnv (ctx_ranked 0 0) os_permissive) world_train
  = (Raise (mkExn AssertionError "found invalid logging level"), world_train)
  /\ exists v,
      getattr_level "WARNING" (mkEnv (ctx_ranked 0 0) os_permissive) world_train
      = (Ok v, world_train)
      /\ set_level 1%nat "WARNING" (mkEnv (ctx_ranked 0 0) os_permissive) world_train
         = (Ok tt, level_set world_train (Named "train") v).
Proof.
  split.
  - apply (set_level_validates 1%nat "TRACE").
    simpl. intros [H|[H|[H|[H|[]]]]]; discriminate H.
  - apply (proj2 (set_level_validates 1%nat "WARNING"
                    (mkEnv (ctx_ranked 0 0) os_permissive) world_train)
             ltac:(simpl; auto) (mkDist "train" (Named "train"))).
    vm_compute. reflexivity.
Defined.

(** *** C4: direct construction under a registered name *)

(** The constructor under a registered name: the address is consumed,
    [__init__] raises. *)
Lemma new_registered n o env w :
  instances w !! n = Some o ->
  new n env w = (Raise (mkExn Exception duplicate_msg), allocated w).
Proof.
  intros H. unfold new, bind at 1, alloc. unfold bind at 1, __init__, bind at 1, get.
  simpl. rewrite H. by rewrite bool_decide_eq_true_2 by eauto.
Qed.

(** C4. When name [n] is registered, constructing a second logger with
    that name raises [Exception] at once; the registry is unchanged, so
    [n] still maps to the original instance, and so are the instances, the
    loggers, the handlers and the output (only an address was consumed). *)
Theorem new_registered_name_raises n o env w :
  instances w !! n = Some o ->
  exists w',
    new n env w = (Raise (mkExn Exception duplicate_msg), w')
    /\ instances w' = instances w
    /\ instances w' !! n = Some o
    /\ objs w' = objs w /\ loggers w' = loggers w
    /\ hheap w' = hheap w /\ events w' = events w.
Proof.
  intros H. exists (allocated w). split.
  - by apply new_registered with o.
  - simpl. by repeat split.
Qed.

Lemma new_registered_name_raises_witness :
  exists w',
    new "train" (mkEnv (ctx_ranked 0 0) os_permissive) world_train
    = (Raise (mkExn Exception duplicate_msg), w')
    /\ instances w' = instances world_train
    /\ instances w' !! "train" = Some 1%nat
    /\ objs w' = objs world_train /\ loggers w' = loggers world_train
    /\ hheap w' = hheap world_train /\ events w' = events world_train.
Proof.
  apply (new_registered_name_raises "train" 1%nat). vm_compute. reflexivity.
Defined.

(** *** The leveled methods: [debug], [info], [warning], [error] *)

(** The four methods are one program, up to the method name. *)
Lemma leveled_unfold l self msg pm ranks stack :
  leveled l self msg pm ranks stack
  = (ci <- __get_call_info stack ;;
     _log self (method_name l) (format_message ci msg) pm ranks).
Proof. by destruct l. Qed.

Lemma get_call_info_pure stack env w :
  snd (__get_call_info stack env w) = w.
Proof.
  unfold __get_call_info, bind, lift. destruct stack as [st|e]; [|done].
  by destruct (st !! 2%nat).
Qed.

Lemma _log_unfiltered l self text pm env w :
  _log self (method_name l) text pm None env w = emit_and_flush l self text env w.
Proof. reflexivity. Qed.

Lemma _log_member l self text pm rs r env w :
  get_local_rank (global_context env) pm = Ok r -> In r rs ->
  _log self (method_name l) text pm (Some rs) env w
  = emit_and_flush l self text env w.
Proof.
  intros Hr Hin. apply int_in_In in Hin.
  unfold _log, bind at 1, ask. unfold bind at 1, lift. rewrite Hr, Hin.
  reflexivity.
Qed.

Lemma _log_not_member level text pm rs r self env w :
  get_local_rank (global_context env) pm = Ok r -> ~ In r rs ->
  _log self level text pm (Some rs) env w = (Ok tt, w).
Proof.
  intros Hr Hin. apply int_in_not_In in Hin.
  unfold _log, bind at 1, ask. unfold bind at 1, lift. rewrite Hr, Hin.
  reflexivity.
Qed.

(** A rank lookup that raises ends [_log]: nothing is emitted or flushed. *)
Lemma _log_rank_lookup_raises level text pm rs e self env w :
  get_local_rank (global_context env) pm = Raise e ->
  _log self level text pm (Some rs) env w = (Raise e, w).
Proof.
  intros Hr. unfold _log, bind at 1, ask. unfold bind at 1, lift. by rewrite Hr.
Qed.

Lemma env_free_ret {A} (a : A) : env_free (ret a).
Proof. done. Qed.

Lemma env_free_raise {A} c msg : env_free (@raise A c msg).
Proof. done. Qed.

Lemma env_free_get : env_free get.
Proof. done. Qed.

Lemma env_free_modify f : env_free (modify f).
Proof. done. Qed.

Lemma env_free_bind {A B} (m : M A) (k : A -> M B) :
  env_free m -> (forall a, env_free (k a)) -> env_free (bind m k).
Proof.
  intros Hm Hk env env' w. unfold bind. rewrite (Hm env env' w).
  destruct (m env' w) as [[a|e] w']; [apply Hk | done].
Qed.

Lemma env_free_for_each {X} (xs : list X) (body : X -> M unit) :
  (forall x, env_free (body x)) -> env_free (for_each xs body).
Proof.
  intros Hb. induction xs as [|x xs IH]; simpl; [done|].
  apply env_free_bind; auto.
Qed.

Create HintDb env_free.

#[local] Hint Resolve env_free_ret env_free_raise env_free_get env_free_modify
  env_free_bind env_free_for_each : env_free.

Lemma env_free_self_logger self : env_free (self_logger self).
Proof.
  unfold self_logger. apply env_free_bind; [done|].
  intros w. destruct (objs w !! self); done.
Qed.

Lemma env_free_log r level msg : env_free (log r level msg).
Proof.
  unfold log. apply env_free_bind; [done|]. intros w.
  destruct (isEnabledFor w r level); [|done].
  destruct (call_targets w (chain r) level). done.
Qed.

Lemma env_free_call_logger self level text : env_free (call_logger self level text).
Proof.
  unfold call_logger. apply env_free_bind; [apply env_free_self_logger|].
  intros lg. apply env_free_bind; [|intros; apply env_free_log].
  unfold getattr_method. repeat case_match; done.
Qed.

Lemma env_free_flush self : env_free (flush self).
Proof.
  unfold flush. apply env_free_bind; [apply env_free_self_logger|].
  intros lg. apply env_free_bind; [unfold handlers; eauto with env_free|].
  intros hs. apply env_free_for_each. done.
Qed.

(** An emission does not depend on the parallel context or on the
    operating system: it is the same on every process. *)
Lemma emit_and_flush_env_free l self text : env_free (emit_and_flush l self text).
Proof.
  apply env_free_bind; [apply env_free_call_logger | intros; apply env_free_flush].
Qed.

(** The filtered branch of [_log], by cases on the rank lookup. *)
Lemma _log_filtered level text pm rs self env w :
  _log self level text pm (Some rs) env w
  = match get_local_rank (global_context env) pm with
    | Ok r => if int_in r rs
              then (call_logger self level text ;;; flush self) env w
              else (Ok tt, w)
    | Raise e => (Raise e, w)
    end.
Proof.
  unfold _log, bind at 1, ask. unfold bind at 1, lift.
  destruct (get_local_rank (global_context env) pm) as [r|e]; [|done].
  by destruct (int_in r rs).
Qed.

(** [_log] never asks the context whether the group is initialised: two
    contexts that answer rank lookups alike are treated alike. *)
Lemma _log_ignores_is_initialized level text pm ranks self ctx ctx' os w :
  get_local_rank ctx pm = get_local_rank ctx' pm ->
  _log self level text pm ranks (mkEnv ctx os) w
  = _log self level text pm ranks (mkEnv ctx' os) w.
Proof.
  intros H.
  assert (Hemit : env_free (call_logger self level text ;;; flush self)).
  { apply env_free_bind; [apply env_free_call_logger | intros; apply env_free_flush]. }
  destruct ranks as [rs|]; [|apply Hemit].
  rewrite !_log_filtered. simpl. rewrite H.
  destruct (get_local_rank ctx' pm) as [r|e]; [|done].
  destruct (int_in r rs); [apply Hemit | done].
Qed.


(** *** Frames: what a computation leaves alone *)

Section Frame.

Variable R : World -> World -> Prop.
Hypothesis R_refl : forall w, R w w.
Hypothesis R_trans : forall a b c, R a b -> R b c -> R a c.

Lemma keeps_ret {A} (a : A) : keeps R (ret a).
Proof. intros env w. apply R_refl. Qed.

Lemma keeps_raise {A} c msg : keeps R (@raise A c msg).
Proof. intros env w. apply R_refl. Qed.

Lemma keeps_lift {A} (r : Res A) : keeps R (lift r).
Proof. intros env w. apply R_refl. Qed.

Lemma keeps_ask : keeps R ask.
Proof. intros env w. apply R_refl. Qed.

Lemma keeps_get : keeps R get.
Proof. intros env w. apply R_refl. Qed.

Lemma keeps_py_assert b msg : keeps R (py_assert b msg).
Proof. intros env w. destruct b; apply R_refl. Qed.

Lemma keeps_modify f : (forall w, R w (f w)) -> keeps R (modify f).
Proof. intros H env w. apply H. Qed.

Lemma keeps_bind {A B} (m : M A) (k : A -> M B) :
  keeps R m -> (forall a, keeps R (k a)) -> keeps R (bind m k).
Proof.
  intros Hm Hk env w. unfold bind. specialize (Hm env w).
  destruct (m env w) as [[a|e] w']; simpl in *; [|done].
  eapply R_trans; [exact Hm | apply Hk].
Qed.

Lemma keeps_for_each {X} (xs : list X) (body : X -> M unit) :
  (forall x, keeps R (body x)) -> keeps R (for_each xs body).
Proof.
  intros Hb. induction xs as [|x xs IH]; simpl.
  - apply keeps_ret.
  - apply keeps_bind; auto.
Qed.

Lemma keeps_if {A} (b : bool) (m1 m2 : M A) :
  keeps R m1 -> keeps R m2 -> keeps R (if b then m1 else m2).
Proof. by destruct b. Qed.

End Frame.

Lemma same_registry_refl w : same_registry w w.
Proof. done. Qed.

Lemma same_registry_trans a b c :
  same_registry a b -> same_registry b c -> same_registry a c.
Proof. unfold same_registry. congruence. Qed.

Lemma registry_kept_refl w : registry_kept w w.
Proof. by intros n o. Qed.

Lemma registry_kept_trans a b c :
  registry_kept a b -> registry_kept b c -> registry_kept a c.
Proof. intros H1 H2 n o H. auto. Qed.

Lemma same_registry_kept w w' : same_registry w w' -> registry_kept w w'.
Proof. intros H n o. by rewrite H. Qed.

(** Solves [keeps same_registry m] for a program [m] built from the
    primitives that do not write the registry. *)
Ltac frame_side :=
  try exact same_registry_refl; try exact same_registry_trans.

Ltac frame_registry :=
  repeat first
    [ apply keeps_ret; frame_side
    | apply keeps_raise; frame_side
    | apply keeps_lift; frame_side
    | apply keeps_ask; frame_side
    | apply keeps_get; frame_side
    | apply keeps_py_assert; frame_side
    | apply keeps_modify; intros ?; reflexivity
    | apply keeps_for_each; frame_side; [intros ?]
    | apply keeps_bind; frame_side; [|intros ?]
    | apply keeps_if
    | progress case_match ].

Lemma self_logger_frame self : keeps same_registry (self_logger self).
Proof. unfold self_logger. frame_registry. Qed.

Lemma getattr_level_frame level : keeps same_registry (getattr_level level).
Proof. unfold getattr_level. frame_registry. Qed.

Lemma set_level_frame self level : keeps same_registry (set_level self level).
Proof.
  unfold set_level, _check_valid_logging_level, setLevel, update_logger.
  frame_registry; first [apply self_logger_frame | apply getattr_level_frame].
Qed.

Lemma flush_frame self : keeps same_registry (flush self).
Proof.
  unfold flush, handlers, Handler_flush, tell.
  frame_registry.
Qed.

Lemma call_logger_frame self level text :
  keeps same_registry (call_logger self level text).
Proof.
  unfold call_logger, getattr_method, log, tell.
  frame_registry.
Qed.

Lemma _log_frame self level text pm ranks :
  keeps same_registry (_log self level text pm ranks).
Proof.
  unfold _log. frame_registry;
    try first [apply call_logger_frame | apply flush_frame].
Qed.

Lemma leveled_frame l self msg pm ranks stack :
  keeps same_registry (leveled l self msg pm ranks stack).
Proof.
  rewrite leveled_unfold. unfold __get_call_info.
  frame_registry; try apply _log_frame.
Qed.

Lemma log_to_file_frame self path mode level :
  keeps same_registry (log_to_file self path mode level).
Proof.
  unfold log_to_file, log_to_file_rank0,
    _check_valid_logging_level, Os.makedirs, Os.open,
    FileHandler_new, StreamHandler_new, Os.open, new_handler, alloc,
    Handler_setLevel, Handler_setFormatter, update_handler,
    set_propagate, addHandler, update_logger, tell.
  frame_registry;
    try first [ apply self_logger_frame | apply getattr_level_frame ].
Qed.

(** *** The registry: [__init__], the constructor and [get_instance] *)

Lemma for_each_setFormatter f hs env w :
  for_each hs (fun h => Handler_setFormatter h f) env w
  = (Ok tt, mkWorld (instances w) (objs w) (loggers w)
                    (formatted f hs (hheap w)) (next_id w) (events w)).
Proof.
  revert w. induction hs as [|h hs IH]; intros w; simpl.
  - by destruct w.
  - unfold bind, Handler_setFormatter at 1, update_handler, modify.
    rewrite IH. reflexivity.
Qed.

Lemma init_registered self name o env w :
  instances w !! name = Some o ->
  __init__ self name env w = (Raise (mkExn Exception duplicate_msg), w).
Proof.
  intros H. unfold __init__, bind at 1, get. rewrite H.
  by rewrite bool_decide_eq_true_2 by eauto.
Qed.

Lemma init_unregistered self name env w :
  instances w !! name = None ->
  __init__ self name env w = (Ok tt, initialised w self name).
Proof.
  intros H. unfold __init__, bind at 1, get. rewrite H.
  rewrite bool_decide_eq_false_2 by (by intros [? ?]).
  unfold bind at 1, getLogger, ret at 1.
  unfold bind at 1, set_fields, modify.
  unfold bind at 1, handlers, bind at 1, get, ret.
  unfold bind at 1. rewrite for_each_setFormatter. reflexivity.
Qed.

Lemma new_unregistered name env w :
  instances w !! name = None ->
  new name env w = (Ok (next_id w), initialised (allocated w) (next_id w) name).
Proof.
  intros H. unfold new, bind at 1, alloc. unfold bind at 1.
  rewrite init_unregistered by done. reflexivity.
Qed.

Lemma get_instance_registered name o env w :
  instances w !! name = Some o -> get_instance name env w = (Ok o, w).
Proof. intros H. unfold get_instance, bind, get. by rewrite H. Qed.

Lemma get_instance_unregistered name env w :
  instances w !! name = None ->
  get_instance name env w
  = (Ok (next_id w), initialised (allocated w) (next_id w) name).
Proof.
  intros H. unfold get_instance, bind at 1, get. rewrite H.
  unfold bind. rewrite new_unregistered by done. reflexivity.
Qed.

(** [get_instance] always returns, and what it returns is registered. *)
Lemma get_instance_returns name env w :
  exists o, fst (get_instance name env w) = Ok o
            /\ instances (snd (get_instance name env w)) !! name = Some o.
Proof.
  destruct (instances w !! name) as [o|] eqn:H.
  - exists o. by rewrite get_instance_registered with (o := o).
  - exists (next_id w). rewrite get_instance_unregistered by done.
    split; [done|]. simpl. apply lookup_insert_eq.
Qed.

Lemma get_instance_keeps name : keeps registry_kept (get_instance name).
Proof.
  intros env w. destruct (instances w !! name) as [o|] eqn:H.
  - rewrite get_instance_registered with (o := o) by done. apply registry_kept_refl.
  - rewrite get_instance_unregistered by done. intros n o Hn. simpl.
    rewrite lookup_insert_ne; [done|]. congruence.
Qed.

Lemma new_keeps name : keeps registry_kept (new name).
Proof.
  intros env w. destruct (instances w !! name) as [o|] eqn:H.
  - rewrite new_registered with (o := o) by done. by intros n o' Hn.
  - rewrite new_unregistered by done. intros n o Hn. simpl.
    rewrite lookup_insert_ne; [done|]. congruence.
Qed.

Lemma void_snd {A} (m : M A) env w : snd (void m env w) = snd (m env w).
Proof. unfold void, bind, ret. by destruct (m env w) as [[a|e] w']. Qed.

(** No call on the class ever removes or rebinds a registered name. *)
Lemma run_call_keeps c : keeps registry_kept (run_call c).
Proof.
  intros env w. destruct c; simpl.
  - rewrite void_snd. apply get_instance_keeps.
  - rewrite void_snd. apply new_keeps.
  - apply same_registry_kept, set_level_frame.
  - apply same_registry_kept, log_to_file_frame.
  - apply same_registry_kept, flush_frame.
  - apply same_registry_kept, leveled_frame.
Qed.

Lemma run_calls_keeps cs env w : registry_kept w (run_calls cs env w).
Proof.
  revert w. induction cs as [|c cs IH]; intros w; simpl.
  - apply registry_kept_refl.
  - eapply registry_kept_trans; [apply run_call_keeps | apply IH].
Qed.

(** C3. Two calls of [get_instance] with the same name return the same
    object, whatever calls on the class (accessor calls included) run in
    between, and that object is the one the registry holds under the
    name. *)
Theorem get_instance_same_object name cs env w :
  let first := get_instance name env w in
  let between := run_calls cs env (snd first) in
  let second := get_instance name env between in
  exists o,
    fst first = Ok o /\ fst second = Ok o
    /\ instances (snd first) !! name = Some o
    /\ instances (snd second) !! name = Some o.
Proof.
  intros first between second.
  destruct (get_instance_returns name env w) as (o & Hr & Hreg).
  exists o. fold first in Hr, Hreg.
  assert (Hb : instances between !! name = Some o)
    by (apply (run_calls_keeps cs env (snd first)), Hreg).
  subst second. rewrite get_instance_registered with (o := o) by done.
  auto.
Qed.

(** *** [log_to_file] on the rank-0 path *)

Lemma getattr_level_any level v env w :
  getattr_level level env w = (Ok v, w) ->
  forall env' w', getattr_level level env' w' = (Ok v, w').
Proof.
  unfold getattr_level. intros H env' w'.
  repeat case_match; unfold ret, raise in *; congruence.
Qed.

Lemma logger_state_insert lg x w ls :
  loggers w = <[lg := x]> ls -> logger_state lg w = x.
Proof. intros H. unfold logger_state. by rewrite H, lookup_insert_eq. Qed.

(** An address not yet handed out is listed by no logger. *)
Lemma unallocated_not_listed w lg n :
  handlers_allocated w -> (next_id w <= n)%nat ->
  n ∉ lg_handlers (logger_state lg w).
Proof.
  intros Hal Hn Hin. unfold logger_state in Hin.
  destruct (loggers w !! lg) as [l|] eqn:E; simpl in Hin.
  - specialize (Hal lg l n E Hin). lia.
  - by apply elem_of_nil in Hin.
Qed.

Lemma log_to_file_attaches self d p path mode level v env w :
  In level valid_levels ->
  rank0_path (global_context env) ->
  is_path path p ->
  dirname p <> "" ->
  makedirs_error (os env) (dirname p) (events w) = None ->
  open_error (os env) p mode (events w ++ [EvMakedirs (dirname p)]) = None ->
  objs w !! self = Some d ->
  handlers_allocated w ->
  getattr_level level env w = (Ok v, w) ->
  log_to_file self path mode level env w
  = (Ok tt, attached_world w (_logger d) p mode v).
Proof.
  intros Hv H0 Hp Hd Hmk Hop Hself Hal Hg.
  rewrite log_to_file_on_rank0 by done.
  apply String.eqb_neq in Hd.
  assert (Hpath : forall (k : string -> M unit), (x <- match path with
          | PPath s => ret s
          | PStr s => ret s
          | POther ty =>
              raise AssertionError
                (String.append "expected argument path to be type str, but got " ty)
          end ;; k x) env w = k p env w) by (by destruct Hp as [-> | ->]).
  unfold log_to_file_rank0. rewrite Hpath.
  cbv beta iota delta [bind Os.makedirs FileHandler_new Os.open StreamHandler_new alloc
    new_handler Handler_setLevel Handler_setFormatter update_handler
    self_logger set_propagate addHandler update_logger tell modify get
    ask lift ret].
  rewrite Hd. simpl. rewrite Hmk. simpl. rewrite Hop. simpl.
  erewrite getattr_level_any by exact Hg. simpl. rewrite Hself. simpl.
  rewrite Hself. simpl.
  unfold logger_state. simpl. rewrite !lookup_insert_eq. simpl.
  rewrite Hself. simpl. rewrite !lookup_insert_eq. simpl.
  pose proof (unallocated_not_listed w (_logger d) (next_id w) Hal (le_n _)) as Hf.
  pose proof (unallocated_not_listed w (_logger d) (S (next_id w)) Hal
                (Nat.le_succ_diag_r _)) as Hs.
  unfold logger_state in Hf, Hs.
  rewrite (bool_decide_eq_false_2 _ Hf). simpl.
  rewrite bool_decide_eq_false_2
    by (rewrite elem_of_app, list_elem_of_singleton; intros [?|?]; [done | lia]).
  simpl. rewrite !insert_insert_eq, !alter_insert_eq. simpl.
  unfold attached_world, logger_state, file_formatter.
  by rewrite <- !app_assoc.
Qed.

(** A successful call on the rank-0 path went through every step: the
    level was valid, the path a [str] or a [Path], the directory created,
    the file opened, and [self] an initialised logger. *)
Lemma log_to_file_success self path mode level env w w' :
  rank0_path (global_context env) ->
  handlers_allocated w ->
  log_to_file self path mode level env w = (Ok tt, w') ->
  exists p d v,
    In level valid_levels /\ is_path path p /\ objs w !! self = Some d
    /\ getattr_level level env w = (Ok v, w)
    /\ w' = attached_world w (_logger d) p mode v.
Proof.
  intros H0 Hal Hrun.
  destruct (str_in level valid_levels) eqn:Hv.
  2:{ apply str_in_not_In in Hv.
      rewrite (proj1 (log_to_file_validates_first self path mode level env w)) in Hrun
        by done. discriminate. }
  apply str_in_In in Hv.
  destruct (getattr_level_valid level env w Hv) as (v & Hg & _).
  assert (Hstep : log_to_file self path mode level env w
                  = log_to_file_rank0 self path mode level env w)
    by (by apply log_to_file_on_rank0).
  assert (exists p, is_path path p) as [p Hp].
  { destruct path as [s|s|ty]; [exists s; by left | exists s; by right |].
    rewrite Hstep in Hrun. discriminate. }
  exists p.
  destruct (String.eqb (dirname p) "") eqn:Hd.
  { apply String.eqb_eq in Hd.
    rewrite (log_to_file_no_directory self path p mode level env w) in Hrun by done.
    discriminate. }
  apply String.eqb_neq in Hd.
  destruct (makedirs_error (os env) (dirname p) (events w)) as [e|] eqn:Hmk.
  { exfalso. rewrite Hstep in Hrun. apply String.eqb_neq in Hd.
    revert Hrun. destruct Hp as [-> | ->];
      cbv beta iota delta [log_to_file_rank0 bind Os.makedirs tell modify get ask lift ret];
      rewrite Hd, Hmk; discriminate. }
  destruct (open_error (os env) p mode (events w ++ [EvMakedirs (dirname p)]))
    as [e|] eqn:Hop.
  { exfalso. rewrite Hstep in Hrun. apply String.eqb_neq in Hd.
    revert Hrun. destruct Hp as [-> | ->];
      cbv beta iota delta [log_to_file_rank0 bind Os.makedirs FileHandler_new Os.open
                             alloc tell modify get ask lift ret];
      rewrite Hd; simpl; rewrite Hmk; simpl; rewrite Hop; discriminate. }
  destruct (objs w !! self) as [d|] eqn:Hself.
  2:{ exfalso. rewrite Hstep in Hrun. apply String.eqb_neq in Hd.
      revert Hrun. destruct Hp as [-> | ->];
        cbv beta iota delta [log_to_file_rank0 bind Os.makedirs FileHandler_new Os.open
          StreamHandler_new alloc new_handler Handler_setLevel Handler_setFormatter
          update_handler self_logger set_propagate addHandler update_logger tell
          modify get ask lift ret];
        rewrite Hd; simpl; rewrite Hmk; simpl; rewrite Hop; simpl;
        (erewrite getattr_level_any by exact Hg); simpl; rewrite Hself;
        discriminate. }
  exists d, v. repeat split; try done.
  rewrite (log_to_file_attaches self d p path mode level v env w) in Hrun by done.
  congruence.
Qed.

(** *** The allocator invariant *)

Lemma handlers_allocated_initial : handlers_allocated initial_world.
Proof.
  intros r lg h Hr Hh. unfold initial_world in Hr. simpl in Hr.
  apply lookup_singleton_Some in Hr as [<- <-]. simpl in *.
  apply list_elem_of_singleton in Hh. subst. lia.
Qed.

Lemma handlers_allocated_mono w w' :
  loggers w' = loggers w -> (next_id w <= next_id w')%nat ->
  handlers_allocated w -> handlers_allocated w'.
Proof.
  intros Hl Hn Hal r lg h Hr Hh. rewrite Hl in Hr.
  specialize (Hal r lg h Hr Hh). lia.
Qed.

Lemma handlers_allocated_insert w w' r x :
  loggers w' = <[r := x]> (loggers w) -> (next_id w <= next_id w')%nat ->
  (forall h, h ∈ lg_handlers x -> (h < next_id w')%nat) ->
  handlers_allocated w -> handlers_allocated w'.
Proof.
  intros Hl Hn Hx Hal r' lg h Hr Hh. rewrite Hl in Hr.
  destruct (decide (r = r')) as [<-|Hne].
  - rewrite lookup_insert_eq in Hr. injection Hr as <-. auto.
  - rewrite lookup_insert_ne in Hr by done.
    specialize (Hal r' lg h Hr Hh). lia.
Qed.

Lemma listed_allocated w lg h :
  handlers_allocated w -> h ∈ lg_handlers (logger_state lg w) ->
  (h < next_id w)%nat.
Proof.
  intros Hal Hin. unfold logger_state in Hin.
  destruct (loggers w !! lg) as [l|] eqn:E; simpl in Hin.
  - by apply (Hal lg l).
  - by apply elem_of_nil in Hin.
Qed.

Lemma handlers_allocated_attached w lg p mode v :
  handlers_allocated w -> handlers_allocated (attached_world w lg p mode v).
Proof.
  intros Hal.
  apply (handlers_allocated_insert w _ lg
           (mkLogger (lg_level (logger_state lg w))
                     (lg_handlers (logger_state lg w) ++ [next_id w; S (next_id w)])
                     false)); simpl; [done | lia | | done].
  intros h Hh. apply elem_of_app in Hh as [Hh|Hh].
  - apply (listed_allocated w lg h Hal) in Hh. lia.
  - apply elem_of_cons in Hh as [->|Hh]; [lia|].
    apply list_elem_of_singleton in Hh. lia.
Qed.

Lemma handlers_allocated_get_instance name env w :
  handlers_allocated w -> handlers_allocated (snd (get_instance name env w)).
Proof.
  intros Hal. destruct (instances w !! name) as [o|] eqn:H.
  - by rewrite get_instance_registered with (o := o).
  - rewrite get_instance_unregistered by done.
    apply (handlers_allocated_mono w); simpl; [done | lia | done].
Qed.

Lemma handlers_allocated_train : handlers_allocated world_train.
Proof. apply handlers_allocated_get_instance, handlers_allocated_initial. Qed.

(** *** What attaching does to the handlers of the logger *)

Lemma attached_handlers w lg p mode v :
  lg_handlers (logger_state lg (attached_world w lg p mode v))
  = lg_handlers (logger_state lg w) ++ [next_id w; S (next_id w)].
Proof.
  unfold logger_state at 1, attached_world. simpl.
  by rewrite lookup_insert_eq.
Qed.

Lemma attached_propagate w lg p mode v :
  lg_propagate (logger_state lg (attached_world w lg p mode v)) = false.
Proof.
  unfold logger_state at 1, attached_world. simpl.
  by rewrite lookup_insert_eq.
Qed.

Lemma attached_file_handler w lg p mode v :
  hheap (attached_world w lg p mode v) !! next_id w
  = Some (mkHandler (FileHandler p mode) v (Some file_formatter)).
Proof.
  unfold attached_world. simpl.
  rewrite lookup_insert_ne by lia. apply lookup_insert_eq.
Qed.

Lemma attached_stream_handler w lg p mode v :
  hheap (attached_world w lg p mode v) !! S (next_id w)
  = Some (mkHandler StreamHandler INFO (Some file_formatter)).
Proof. unfold attached_world. simpl. apply lookup_insert_eq. Qed.

Lemma attached_old_handler w lg p mode v h :
  (h < next_id w)%nat ->
  hheap (attached_world w lg p mode v) !! h = hheap w !! h.
Proof.
  intros Hh. unfold attached_world. simpl.
  by rewrite !lookup_insert_ne by lia.
Qed.

Lemma filter_ext_elem {A} (f g : A -> bool) (l : list A) :
  (forall x, x ∈ l -> f x = g x) -> List.filter f l = List.filter g l.
Proof.
  induction l as [|a l IH]; intros H; simpl; [done|].
  rewrite H by apply list_elem_of_here.
  rewrite IH; [done|]. intros x Hx. apply H. by apply list_elem_of_further.
Qed.

(** Attaching adds exactly one console handler to those the logger had. *)
Lemma attached_console_handlers w lg p mode v :
  handlers_allocated w ->
  console_handlers (attached_world w lg p mode v) lg
  = console_handlers w lg ++ [S (next_id w)].
Proof.
  intros Hal. unfold console_handlers. rewrite attached_handlers.
  rewrite List.filter_app. f_equal.
  - apply filter_ext_elem. intros h Hh. unfold is_stream.
    rewrite attached_old_handler; [done|]. by apply (listed_allocated w lg).
  - simpl. unfold is_stream.
    by rewrite attached_file_handler, attached_stream_handler.
Qed.

(** The logger itself heads its chain, so each of its accepting handlers
    receives its records. *)
Lemma own_handler_receives w lg level h hd :
  h ∈ lg_handlers (logger_state lg w) ->
  hheap w !! h = Some hd -> h_level hd <= level ->
  receives w lg level h.
Proof.
  intros Hin Hh Hle. unfold receives.
  assert (Hhere : In h (List.filter (accepts w level) (lg_handlers (logger_state lg w)))).
  { apply filter_In. split; [by apply list_elem_of_In|].
    unfold accepts. rewrite Hh. by apply Z.leb_le. }
  destruct lg as [|n]; simpl.
  - destruct (lg_propagate (logger_state RootLogger w)); simpl; [|done].
    apply in_or_app. by left.
  - destruct (lg_propagate (logger_state (Named n) w)); [|done].
    destruct (call_targets w _ level) as [up found]. simpl.
    apply in_or_app. by left.
Qed.

(** *** What an emission writes *)

Lemma for_each_flush hs env w :
  for_each hs Handler_flush env w
  = (Ok tt, mkWorld (instances w) (objs w) (loggers w) (hheap w) (next_id w)
                    (events w ++ map EvFlush hs)).
Proof.
  revert w. induction hs as [|h hs IH]; intros w; simpl.
  - rewrite app_nil_r. by destruct w.
  - unfold bind, Handler_flush at 1, tell, modify. rewrite IH. simpl.
    by rewrite <- app_assoc.
Qed.

Lemma getattr_method_name l env w :
  getattr_method (method_name l) env w = (Ok (severity l), w).
Proof. by destruct l. Qed.

Lemma log_run lg level text env w :
  log lg level text env w
  = (Ok tt, mkWorld (instances w) (objs w) (loggers w) (hheap w) (next_id w)
                    (events w ++ emitted w lg level text)).
Proof.
  unfold log, emitted, bind, get.
  destruct (isEnabledFor w lg level).
  - by destruct (call_targets w (chain lg) level).
  - unfold ret. rewrite app_nil_r. by destruct w.
Qed.

(** On an initialised logger an emission always returns; it hands the
    record to the handlers and flushes the logger's own handlers. *)
Lemma emit_and_flush_run l self text d env w :
  objs w !! self = Some d ->
  emit_and_flush l self text env w
  = (Ok tt, emission_world w (_logger d) (severity l) text).
Proof.
  intros Hd. unfold emit_and_flush, bind at 1, call_logger.
  unfold bind at 1, self_logger, bind at 1, get. rewrite Hd. unfold ret at 1.
  unfold bind at 1. rewrite getattr_method_name. rewrite log_run.
  unfold flush, bind at 1, self_logger, bind at 1, get. simpl. rewrite Hd.
  unfold ret at 1. unfold bind at 1, handlers, bind at 1, get, ret.
  rewrite for_each_flush. unfold emission_world. simpl.
  by rewrite <- app_assoc.
Qed.

(** *** The rank gate and the caller's location *)

(** C1 (the code departs from the claim). On a process where no group is
    initialised and the context signals it by raising from the rank lookup,
    a filtered leveled call does not fall back to rank 0: for every set of
    allowed ranks, with or without 0, the call raises the context's error,
    and emits and flushes nothing. *)
Theorem leveled_uninitialized_group_raises l self msg pm rs os w :
  is_initialized ctx_uninitialized pm = false
  /\ leveled l self msg pm (Some rs) (stack_from_train (method_name l))
             (mkEnv ctx_uninitialized os) w
     = (Raise (mkExn KeyError "parallel mode is not initialized"), w).
Proof.
  split; [reflexivity|].
  rewrite leveled_unfold. unfold bind at 1. simpl.
  by apply _log_rank_lookup_raises.
Qed.

(** C2. A leveled call whose [ranks] is [None] emits on every process,
    whatever the parallel context.  With [ranks] set and the rank of the
    process in the group resolved to [r], the call does exactly what the
    unfiltered call does when [r] is a member of [ranks], and when it is not
    it returns normally with the state untouched: no output, no flush, no
    error.  Emitting, on an initialised logger, is handing the record to
    the handlers and flushing the logger's own handlers; it cannot fail. *)
Theorem leveled_rank_gate l self msg pm stack ci env w :
  __get_call_info stack env w = (Ok ci, w) ->
  leveled l self msg pm None stack env w
  = emit_and_flush l self (format_message ci msg) env w
  /\ (forall rs r,
        get_local_rank (global_context env) pm = Ok r ->
        (In r rs ->
         leveled l self msg pm (Some rs) stack env w
         = emit_and_flush l self (format_message ci msg) env w)
        /\ (~ In r rs ->
            leveled l self msg pm (Some rs) stack env w = (Ok tt, w)))
  /\ (forall d,
        objs w !! self = Some d ->
        emit_and_flush l self (format_message ci msg) env w
        = (Ok tt, emission_world w (_logger d) (severity l) (format_message ci msg))).
Proof.
  intros Hci.
  assert (Hrun : forall ranks,
            leveled l self msg pm ranks stack env w
            = _log self (method_name l) (format_message ci msg) pm ranks env w).
  { intros ranks. rewrite leveled_unfold. unfold bind at 1. by rewrite Hci. }
  rewrite Hrun. split; [reflexivity|]. split.
  - intros rs r Hr. rewrite Hrun. split; intros Hin.
    + by apply _log_member with r.
    + by apply _log_not_member with r.
  - intros d Hd. by apply emit_and_flush_run.
Qed.

Lemma leveled_rank_gate_witness :
  let env := mkEnv (ctx_ranked 1 1) os_permissive in
  let text := "[train.py, 42, train] step 1" in
  leveled LvInfo 1%nat "step 1" GLOBAL None (stack_from_train "info") env world_train
  = emit_and_flush LvInfo 1%nat text env world_train
  /\ leveled LvInfo 1%nat "step 1" GLOBAL (Some [1; 2]) (stack_from_train "info")
             env world_train
     = emit_and_flush LvInfo 1%nat text env world_train
  /\ leveled LvInfo 1%nat "step 1" GLOBAL (Some [0; 2]) (stack_from_train "info")
             env world_train
     = (Ok tt, world_train)
  /\ emit_and_flush LvInfo 1%nat text env world_train
     = (Ok tt, emission_world world_train (Named "train") INFO text).
Proof.
  intros env text.
  assert (Hci : __get_call_info (stack_from_train "info") env world_train
                = (Ok ("train.py", 42, "train"), world_train)) by reflexivity.
  pose proof (leveled_rank_gate LvInfo 1%nat "step 1" GLOBAL _ _ env _ Hci)
    as (H1 & H2 & H3).
  split; [exact H1|]. split; [|split].
  - apply (H2 [1; 2] 1 eq_refl). simpl. auto.
  - apply (H2 [0; 2] 1 eq_refl). simpl. intros [H|[H|[]]]; discriminate H.
  - apply (H3 (mkDist "train" (Named "train"))). vm_compute. reflexivity.
Defined.

(** C8 (as the code has it). When the caller's location cannot be read
    from the stack, the leveled call raises that error before the rank gate
    is reached: nothing is emitted or flushed and the state is unchanged. *)
Theorem leveled_call_info_failure_propagates l self msg pm ranks stack e env w :
  fst (__get_call_info stack env w) = Raise e ->
  leveled l self msg pm ranks stack env w = (Raise e, w).
Proof.
  intros H. rewrite leveled_unfold. unfold bind.
  pose proof (get_call_info_pure stack env w) as Hw.
  destruct (__get_call_info stack env w) as [[ci|e'] w']; simpl in *; congruence.
Qed.

Lemma leveled_call_info_failure_propagates_witness :
  leveled LvInfo 1%nat "step 1" GLOBAL None (stack_no_caller "info")
          (mkEnv (ctx_ranked 0 0) os_permissive) world_train
  = (Raise (mkExn IndexError "list index out of range"), world_train).
Proof.
  apply leveled_call_info_failure_propagates. reflexivity.
Defined.

(** C8, counterexample. A leveled call entered without a Python caller
    frame: the stack has no third entry, the call raises [IndexError] and
    writes nothing, where the claim has it emit the message without the
    location prefix. *)
Lemma leveled_no_caller_frame_raises :
  let run := info 1%nat "step 1" GLOBAL None (stack_no_caller "info")
                  (mkEnv (ctx_ranked 0 0) os_permissive) world_train in
  is_ok (fst run) = false
  /\ events (snd run) = events world_train
  /\ run <> emit_and_flush LvInfo 1%nat "step 1"
                           (mkEnv (ctx_ranked 0 0) os_permissive) world_train.
Proof.
  vm_compute. repeat split. discriminate.
Qed.

(** *** The allocator invariant holds in every reachable state *)

Lemma alloc_step_refl w : alloc_step w w.
Proof. by split. Qed.

Lemma alloc_step_trans a b c : alloc_step a b -> alloc_step b c -> alloc_step a c.
Proof. intros [H1 H2] [H3 H4]. split; [lia | auto]. Qed.

Lemma is_allocated_stable h w w' :
  is_allocated h w -> alloc_step w w' -> is_allocated h w'.
Proof. unfold is_allocated. intros H [Hn _]. lia. Qed.

Lemma keeps_from_any P R {A} (m : M A) : keeps R m -> keeps_from P R m.
Proof. intros H env w _. apply H. Qed.

(** Sequencing when the first computation returns a value satisfying [Q]
    in its final state. *)
Lemma keeps_from_bind (P : World -> Prop) {A B} (Q : A -> World -> Prop)
  (m : M A) (k : A -> M B) :
  (forall env w, P w ->
     alloc_step w (snd (m env w))
     /\ forall a, fst (m env w) = Ok a -> Q a (snd (m env w))) ->
  (forall a, keeps_from (Q a) alloc_step (k a)) ->
  keeps_from P alloc_step (bind m k).
Proof.
  intros Hm Hk env w HP. unfold bind. destruct (Hm env w HP) as [Hs Hq].
  destruct (m env w) as [[a|e] w']; simpl in *; [|done].
  eapply alloc_step_trans; [exact Hs | apply Hk; auto].
Qed.

(** Sequencing under a precondition that allocation steps preserve. *)
Lemma keeps_from_seq h {A B} (m : M A) (k : A -> M B) :
  keeps_from (is_allocated h) alloc_step m ->
  (forall a, keeps_from (is_allocated h) alloc_step (k a)) ->
  keeps_from (is_allocated h) alloc_step (bind m k).
Proof.
  intros Hm Hk. apply keeps_from_bind with (Q := fun _ => is_allocated h); [|done].
  intros env w HP. split; [by apply Hm|].
  intros a _. eapply is_allocated_stable; [exact HP | by apply Hm].
Qed.

Lemma alloc_step_same w w' :
  loggers w' = loggers w -> (next_id w <= next_id w')%nat -> alloc_step w w'.
Proof. intros Hl Hn. split; [done|]. by apply handlers_allocated_mono. Qed.

Lemma update_logger_alloc_step r f :
  (forall lg, lg_handlers (f lg) = lg_handlers lg) ->
  keeps alloc_step (update_logger r f).
Proof.
  intros Hf env w. split; [done|]. intros Hal.
  apply (handlers_allocated_insert w _ r (f (logger_state r w))); simpl;
    [done | lia | | done].
  intros h Hh. rewrite Hf in Hh. by apply (listed_allocated w r).
Qed.

Lemma addHandler_alloc_step r h :
  keeps_from (is_allocated h) alloc_step (addHandler r h).
Proof.
  intros env w Hh. split; [done|]. intros Hal.
  eapply (handlers_allocated_insert w _ r); simpl; [done | lia | | done].
  intros x Hx. case_bool_decide.
  - by apply (listed_allocated w r).
  - simpl in Hx. apply elem_of_app in Hx as [Hx|Hx].
    + by apply (listed_allocated w r).
    + apply list_elem_of_singleton in Hx. by subst.
Qed.

Ltac alloc_side :=
  try exact alloc_step_refl; try exact alloc_step_trans.

(** Solves [keeps alloc_step m] for a program that adds no handler. *)
Ltac frame_alloc :=
  repeat first
    [ apply keeps_ret; alloc_side
    | apply keeps_raise; alloc_side
    | apply keeps_lift; alloc_side
    | apply keeps_ask; alloc_side
    | apply keeps_get; alloc_side
    | apply keeps_py_assert; alloc_side
    | apply update_logger_alloc_step; intros ?; reflexivity
    | apply keeps_modify; intros ?; apply alloc_step_same; simpl; [reflexivity | lia]
    | apply keeps_for_each; alloc_side; [intros ?]
    | apply keeps_bind; alloc_side; [|intros ?]
    | apply keeps_if
    | progress case_match ].

Lemma set_level_alloc_step self level : keeps alloc_step (set_level self level).
Proof.
  unfold set_level, _check_valid_logging_level, setLevel, getattr_level.
  frame_alloc.
Qed.

Lemma flush_alloc_step self : keeps alloc_step (flush self).
Proof. unfold flush, handlers, Handler_flush, tell. frame_alloc. Qed.

Lemma call_logger_alloc_step self level text :
  keeps alloc_step (call_logger self level text).
Proof. unfold call_logger, getattr_method, log, tell. frame_alloc. Qed.

Lemma leveled_alloc_step l self msg pm ranks stack :
  keeps alloc_step (leveled l self msg pm ranks stack).
Proof.
  rewrite leveled_unfold. unfold __get_call_info, _log.
  frame_alloc; try first [apply call_logger_alloc_step | apply flush_alloc_step].
Qed.

Lemma get_instance_alloc_step name : keeps alloc_step (get_instance name).
Proof.
  intros env w. destruct (instances w !! name) as [o|] eqn:H.
  - rewrite get_instance_registered with (o := o) by done. apply alloc_step_refl.
  - rewrite get_instance_unregistered by done.
    apply alloc_step_same; simpl; [done | lia].
Qed.

Lemma new_alloc_step name : keeps alloc_step (new name).
Proof.
  intros env w. destruct (instances w !! name) as [o|] eqn:H.
  - rewrite new_registered with (o := o) by done.
    apply alloc_step_same; simpl; [done | lia].
  - rewrite new_unregistered by done.
    apply alloc_step_same; simpl; [done | lia].
Qed.

Lemma keeps_of_from R {A} (m : M A) : keeps_from (fun _ => True) R m -> keeps R m.
Proof. intros H env w. by apply H. Qed.

Lemma FileHandler_new_allocates path mode env w :
  alloc_step w (snd (FileHandler_new path mode env w))
  /\ forall h, fst (FileHandler_new path mode env w) = Ok h ->
               is_allocated h (snd (FileHandler_new path mode env w)).
Proof.
  cbv beta iota delta [FileHandler_new bind alloc Os.open new_handler tell modify
                         get ask lift ret].
  destruct (open_error (os env) path mode _); simpl.
  - split; [apply alloc_step_same; simpl; [done | lia] | discriminate].
  - split; [apply alloc_step_same; simpl; [done | lia]|].
    intros h [= <-]. unfold is_allocated. simpl. lia.
Qed.

Lemma StreamHandler_new_allocates env w :
  alloc_step w (snd (StreamHandler_new env w))
  /\ forall h, fst (StreamHandler_new env w) = Ok h ->
               is_allocated h (snd (StreamHandler_new env w)).
Proof.
  cbv beta iota delta [StreamHandler_new bind alloc new_handler modify ret]. simpl.
  split; [apply alloc_step_same; simpl; [done | lia]|].
  intros h [= <-]. unfold is_allocated. simpl. lia.
Qed.

Lemma self_logger_alloc_step self : keeps alloc_step (self_logger self).
Proof. unfold self_logger. frame_alloc. Qed.

Lemma getattr_level_alloc_step level : keeps alloc_step (getattr_level level).
Proof. unfold getattr_level. frame_alloc. Qed.

Lemma update_handler_alloc_step h f : keeps alloc_step (update_handler h f).
Proof. unfold update_handler. frame_alloc. Qed.

Lemma set_propagate_alloc_step r b : keeps alloc_step (set_propagate r b).
Proof. unfold set_propagate. frame_alloc. Qed.

(** One step of a program that holds an allocated handler. *)
Ltac step_alloc :=
  lazymatch goal with
  | |- keeps_from _ _ (bind _ _) => apply keeps_from_seq; [|intros ?]
  | |- keeps_from _ _ (addHandler _ _) => apply addHandler_alloc_step
  | |- keeps_from _ _ _ =>
      apply keeps_from_any;
      first [ apply self_logger_alloc_step | apply getattr_level_alloc_step
            | apply update_handler_alloc_step | apply set_propagate_alloc_step ]
  end.

Lemma log_to_file_rank0_alloc_step self path mode level :
  keeps alloc_step (log_to_file_rank0 self path mode level).
Proof.
  unfold log_to_file_rank0.
  apply keeps_bind; alloc_side; [frame_alloc | intros p].
  apply keeps_bind; alloc_side; [unfold Os.makedirs, tell; frame_alloc | intros _].
  apply keeps_of_from.
  apply keeps_from_bind with (Q := fun h => is_allocated h).
  { intros env w _. apply FileHandler_new_allocates. }
  intros fh. do 7 (step_alloc; [step_alloc|]).
  apply keeps_from_bind with (Q := fun h => is_allocated h).
  { intros env w _. apply StreamHandler_new_allocates. }
  intros sh. repeat step_alloc.
Qed.

Lemma log_to_file_alloc_step self path mode level :
  keeps alloc_step (log_to_file self path mode level).
Proof.
  unfold log_to_file.
  apply keeps_bind; alloc_side;
    [unfold _check_valid_logging_level; frame_alloc | intros _].
  apply keeps_bind; alloc_side; [frame_alloc | intros env].
  apply keeps_bind; alloc_side; [frame_alloc | intros rank].
  apply keeps_if; [frame_alloc | apply log_to_file_rank0_alloc_step].
Qed.

Lemma run_call_alloc_step c : keeps alloc_step (run_call c).
Proof.
  intros env w. destruct c; simpl.
  - rewrite void_snd. apply get_instance_alloc_step.
  - rewrite void_snd. apply new_alloc_step.
  - apply set_level_alloc_step.
  - apply log_to_file_alloc_step.
  - apply flush_alloc_step.
  - apply leveled_alloc_step.
Qed.

(** Every state a client can reach from a fresh interpreter satisfies the
    allocator invariant. *)
Lemma reachable_handlers_allocated cs env w :
  handlers_allocated w -> handlers_allocated (run_calls cs env w).
Proof.
  revert w. induction cs as [|c cs IH]; intros w Hal; simpl; [done|].
  apply IH. by apply (run_call_alloc_step c env w).
Qed.

(* ===================================================================== *)
(** ** The file sink: [log_to_file] *)
(* ===================================================================== *)

(** C9. In [log_to_file] the level string is checked before the rank is
    read: with an invalid level the call raises [AssertionError] on every
    process, whatever the parallel context says, and leaves the state as it
    was; this includes a process of nonzero global rank, on which the same
    call with a valid level returns without doing anything. *)
Theorem log_to_file_validates_before_rank self path mode level env w :
  (~ In level valid_levels ->
   log_to_file self path mode level env w
   = (Raise (mkExn AssertionError "found invalid logging level"), w))
  /\ (In level valid_levels -> nonzero_rank (global_context env) ->
      log_to_file self path mode level env w = (Ok tt, w)).
Proof. apply log_to_file_validates_first. Qed.

Lemma log_to_file_validates_before_rank_witness :
  log_to_file 1%nat (PStr "/tmp/x/log.txt") "a" "TRACE"
              (mkEnv (ctx_ranked 3 0) os_permissive) world_train
  = (Raise (mkExn AssertionError "found invalid logging level"), world_train)
  /\ log_to_file 1%nat (PStr "/tmp/x/log.txt") "a" "INFO"
                 (mkEnv (ctx_ranked 3 0) os_permissive) world_train
     = (Ok tt, world_train).
Proof.
  pose proof (log_to_file_validates_before_rank 1%nat (PStr "/tmp/x/log.txt") "a" "TRACE"
                (mkEnv (ctx_ranked 3 0) os_permissive) world_train) as [H1 _].
  pose proof (log_to_file_validates_before_rank 1%nat (PStr "/tmp/x/log.txt") "a" "INFO"
                (mkEnv (ctx_ranked 3 0) os_permissive) world_train) as [_ H2].
  split.
  - apply H1. simpl. intros [H|[H|[H|[H|[]]]]]; discriminate H.
  - apply H2.
    + simpl. auto.
    + split; [reflexivity|]. exists 3. split; [reflexivity | discriminate].
Defined.

(** C10. On the rank-0 path, a path whose directory part is empty (a bare
    file name) makes [log_to_file] raise in [os.makedirs('')]: no file
    handler, no console handler, and the propagation flag as it was; the
    whole state is unchanged. *)
Theorem log_to_file_bare_name_raises self path p mode level env w :
  In level valid_levels ->
  rank0_path (global_context env) ->
  is_path path p ->
  dirname p = "" ->
  log_to_file self path mode level env w
  = (Raise (mkExn FileNotFoundError "[Errno 2] No such file or directory"), w).
Proof. apply log_to_file_no_directory. Qed.

Lemma log_to_file_bare_name_raises_witness :
  log_to_file 1%nat (PStr "log.txt") "a" "INFO"
              (mkEnv (ctx_ranked 0 0) os_permissive) world_train
  = (Raise (mkExn FileNotFoundError "[Errno 2] No such file or directory"),
     world_train).
Proof.
  apply (log_to_file_bare_name_raises 1%nat (PStr "log.txt") "log.txt").
  - simpl. auto.
  - right. split; reflexivity.
  - left. reflexivity.
  - reflexivity.
Defined.






(** C7. A successful call of [log_to_file] on the rank-0 path appends to
    the handlers of the logger exactly two new handlers, in this order: one
    file handler on the given path and mode at the requested level, and one
    console handler at [INFO]; it sets the propagation flag to false.  So
    the logger has one console handler more after each such call, and after
    two calls two of them, both receiving every record at [INFO] or above:
    console output is duplicated. *)
Theorem log_to_file_adds_handlers_each_time self env :
  rank0_path (global_context env) ->
  (forall w path mode level w',
      handlers_allocated w ->
      log_to_file self path mode level env w = (Ok tt, w') ->
      exists d p v,
        objs w !! self = Some d /\ is_path path p
        /\ getattr_level level env w = (Ok v, w)
        /\ lg_handlers (logger_state (_logger d) w')
           = lg_handlers (logger_state (_logger d) w) ++ [next_id w; S (next_id w)]
        /\ hheap w' !! next_id w
           = Some (mkHandler (FileHandler p mode) v (Some file_formatter))
        /\ hheap w' !! S (next_id w)
           = Some (mkHandler StreamHandler INFO (Some file_formatter))
        /\ lg_propagate (logger_state (_logger d) w') = false
        /\ console_handlers w' (_logger d)
           = console_handlers w (_logger d) ++ [S (next_id w)])
  /\ (forall w path1 mode1 level1 w1 path2 mode2 level2 w2,
         handlers_allocated w ->
         log_to_file self path1 mode1 level1 env w = (Ok tt, w1) ->
         log_to_file self path2 mode2 level2 env w1 = (Ok tt, w2) ->
         exists d s1 s2,
           objs w !! self = Some d /\ s1 <> s2
           /\ console_handlers w2 (_logger d)
              = console_handlers w (_logger d) ++ [s1; s2]
           /\ forall level, INFO <= level ->
                receives w2 (_logger d) level s1
                /\ receives w2 (_logger d) level s2).
Proof.
  intros H0. split.
  - intros w path mode level w' Hal Hrun.
    destruct (log_to_file_success self path mode level env w w' H0 Hal Hrun)
      as (p & d & v & Hv & Hp & Hd & Hg & ->).
    exists d, p, v. repeat split; try done.
    + apply attached_handlers.
    + apply attached_file_handler.
    + apply attached_stream_handler.
    + apply attached_propagate.
    + by apply attached_console_handlers.
  - intros w path1 mode1 level1 w1 path2 mode2 level2 w2 Hal Hrun1 Hrun2.
    destruct (log_to_file_success self path1 mode1 level1 env w w1 H0 Hal Hrun1)
      as (p1 & d & v1 & _ & _ & Hd & _ & ->).
    pose proof (handlers_allocated_attached w (_logger d) p1 mode1 v1 Hal) as Hal1.
    destruct (log_to_file_success self path2 mode2 level2 env _ w2 H0 Hal1 Hrun2)
      as (p2 & d' & v2 & _ & _ & Hd' & _ & ->).
    simpl in Hd'. rewrite Hd in Hd'. injection Hd' as <-.
    set (w1 := attached_world w (_logger d) p1 mode1 v1) in *.
    exists d, (S (next_id w)), (S (next_id w1)).
    split; [done|]. split; [simpl; lia|]. split.
    + rewrite attached_console_handlers by done.
      subst w1. rewrite attached_console_handlers by done.
      by rewrite <- app_assoc.
    + intros level Hle. split.
      * apply own_handler_receives
          with (hd := mkHandler StreamHandler INFO (Some file_formatter)); [| |done].
        -- rewrite attached_handlers. subst w1. rewrite attached_handlers.
           rewrite !elem_of_app, !elem_of_cons. auto.
        -- rewrite attached_old_handler by (simpl; lia).
           apply attached_stream_handler.
      * apply own_handler_receives
          with (hd := mkHandler StreamHandler INFO (Some file_formatter)); [| |done].
        -- rewrite attached_handlers.
           rewrite !elem_of_app, !elem_of_cons. auto.
        -- apply attached_stream_handler.
Qed.

Lemma log_to_file_adds_handlers_each_time_witness :
  let env := mkEnv (ctx_ranked 0 0) os_permissive in
  let w0 := world_train in
  let w1 := snd (log_to_file 1%nat (PStr "/tmp/x/log.txt") "a" "INFO" env w0) in
  let w2 := snd (log_to_file 1%nat (PStr "/tmp/x/log.txt") "a" "INFO" env w1) in
  (exists d p v,
      objs w0 !! 1%nat = Some d /\ is_path (PStr "/tmp/x/log.txt") p
      /\ getattr_level "INFO" env w0 = (Ok v, w0)
      /\ lg_handlers (logger_state (_logger d) w1)
         = lg_handlers (logger_state (_logger d) w0) ++ [next_id w0; S (next_id w0)]
      /\ hheap w1 !! next_id w0
         = Some (mkHandler (FileHandler p "a") v (Some file_formatter))
      /\ hheap w1 !! S (next_id w0)
         = Some (mkHandler StreamHandler INFO (Some file_formatter))
      /\ lg_propagate (logger_state (_logger d) w1) = false
      /\ console_handlers w1 (_logger d)
         = console_handlers w0 (_logger d) ++ [S (next_id w0)])
  /\ (exists d s1 s2,
         objs w0 !! 1%nat = Some d /\ s1 <> s2
         /\ console_handlers w2 (_logger d)
            = console_handlers w0 (_logger d) ++ [s1; s2]
         /\ forall level, INFO <= level ->
              receives w2 (_logger d) level s1
              /\ receives w2 (_logger d) level s2).
Proof.
  intros env w0 w1 w2.
  assert (H0 : rank0_path (global_context env)) by (right; split; reflexivity).
  destruct (log_to_file_adds_handlers_each_time 1%nat env H0) as [H1 H2].
  split.
  - apply (H1 w0 (PStr "/tmp/x/log.txt") "a" "INFO" w1 handlers_allocated_train).
    vm_compute. reflexivity.
  - apply (H2 w0 (PStr "/tmp/x/log.txt") "a" "INFO" w1
              (PStr "/tmp/x/log.txt") "a" "INFO" w2 handlers_allocated_train).
    + vm_compute. reflexivity.
    + vm_compute. reflexivity.
Defined.

(* ===================================================================== *)
(** ** Further properties of the class *)
(* ===================================================================== *)

(** *** [flush] *)

Lemma for_each_flush_until refuses pre env w :
  (forall x, x ∈ pre -> refuses x = None) ->
  forall rest,
    for_each (pre ++ rest) (Fallible.Handler_flush refuses) env w
    = for_each rest (Fallible.Handler_flush refuses) env (flushed w pre).
Proof.
  revert w. induction pre as [|x pre IH]; intros w Hpre rest; simpl.
  - unfold flushed. simpl. rewrite app_nil_r. by destruct w.
  - unfold bind, Fallible.Handler_flush at 1.
    rewrite (Hpre x) by apply list_elem_of_here.
    unfold tell, modify. rewrite IH by (intros y Hy; apply Hpre; by right).
    unfold flushed. simpl. by rewrite <- app_assoc.
Qed.

(** With streams that never refuse, this is the [flush] the leveled
    methods call. *)
Lemma flush_never_refusing self env w :
  Fallible.flush (fun _ => None) self env w = flush self env w.
Proof. reflexivity. Qed.

(** X1. [flush] visits the handlers of the underlying logger in the order
    of the handler list, and of no ancestor.  When no handler's flush
    raises, each is flushed once and the call returns, nothing else
    changed.  When the flush of one handler raises, that error propagates
    out of [flush]: the handlers before it were flushed, the handlers after
    it are not. *)
Theorem flush_in_order_until_first_error refuses self d env w :
  objs w !! self = Some d ->
  ((forall h, h ∈ lg_handlers (logger_state (_logger d) w) -> refuses h = None) ->
   Fallible.flush refuses self env w
   = (Ok tt, flushed w (lg_handlers (logger_state (_logger d) w))))
  /\ (forall pre h post e,
         lg_handlers (logger_state (_logger d) w) = pre ++ h :: post ->
         (forall x, x ∈ pre -> refuses x = None) ->
         refuses h = Some e ->
         Fallible.flush refuses self env w = (Raise e, flushed w pre)).
Proof.
  intros Hd.
  assert (Hrun : Fallible.flush refuses self env w
                 = for_each (lg_handlers (logger_state (_logger d) w))
                            (Fallible.Handler_flush refuses) env w).
  { unfold Fallible.flush, bind at 1, self_logger, bind at 1, get. rewrite Hd.
    unfold ret at 1. by unfold bind at 1, handlers, bind at 1, get, ret. }
  rewrite Hrun. split.
  - intros Hall.
    rewrite <- (app_nil_r (lg_handlers (logger_state (_logger d) w))) at 1.
    by rewrite for_each_flush_until.
  - intros pre h post e Hhs Hpre Hh. rewrite Hhs.
    rewrite for_each_flush_until by done. simpl.
    unfold bind, Fallible.Handler_flush at 1. by rewrite Hh.
Qed.

Lemma flush_in_order_until_first_error_witness :
  let env := mkEnv (ctx_ranked 0 0) os_permissive in
  let w := snd (log_to_file 1%nat (PStr "/tmp/x/log.txt") "a" "INFO" env world_train) in
  Fallible.flush (fun _ => None) 1%nat env w = (Ok tt, flushed w [2%nat; 3%nat])
  /\ Fallible.flush (disk_full_for 2%nat) 1%nat env w
     = (Raise (mkExn OSError "[Errno 28] No space left on device"), flushed w [])
  /\ Fallible.flush (disk_full_for 3%nat) 1%nat env w
     = (Raise (mkExn OSError "[Errno 28] No space left on device"),
        flushed w [2%nat]).
Proof.
  intros env w.
  assert (Hd : objs w !! 1%nat = Some (mkDist "train" (Named "train")))
    by (vm_compute; reflexivity).
  split; [|split].
  - apply (proj1 (flush_in_order_until_first_error (fun _ => None) 1%nat _ env w Hd)).
    done.
  - apply (proj2 (flush_in_order_until_first_error (disk_full_for 2%nat) 1%nat _
                    env w Hd) [] 2%nat [3%nat]).
    + vm_compute. reflexivity.
    + intros x Hx. by apply elem_of_nil in Hx.
    + reflexivity.
  - apply (proj2 (flush_in_order_until_first_error (disk_full_for 3%nat) 1%nat _
                    env w Hd) [2%nat] 3%nat []).
    + vm_compute. reflexivity.
    + intros x Hx. apply list_elem_of_singleton in Hx. by subst.
    + reflexivity.
Defined.

(** *** The leveled methods *)

Lemma env_free_get_call_info stack : env_free (__get_call_info stack).
Proof.
  unfold __get_call_info. apply env_free_bind; [done|].
  intros st. by destruct (st !! 2%nat).
Qed.

(** X2. Without [ranks] a leveled call reads neither the parallel context
    nor the [parallel_mode] argument: it gives the same result for every
    group and in every environment. *)
Theorem leveled_unfiltered_ignores_group l self msg pm pm' stack env env' w :
  leveled l self msg pm None stack env w
  = leveled l self msg pm' None stack env' w.
Proof.
  rewrite !leveled_unfold.
  assert (H : env_free (ci <- __get_call_info stack ;;
                        _log self (method_name l) (format_message ci msg) pm' None)).
  { apply env_free_bind; [apply env_free_get_call_info|].
    intros ci. apply emit_and_flush_env_free. }
  exact (H env env' w).
Qed.

(** X3. With [ranks] set, an error raised by the rank lookup of the
    context leaves the leveled call as it is: the call raises that very
    error, emits and flushes nothing, and the state is unchanged, whatever
    [ranks] holds. *)
Theorem leveled_rank_lookup_error_propagates l self msg pm rs stack ci e env w :
  __get_call_info stack env w = (Ok ci, w) ->
  get_local_rank (global_context env) pm = Raise e ->
  leveled l self msg pm (Some rs) stack env w = (Raise e, w).
Proof.
  intros Hci Hr. rewrite leveled_unfold. unfold bind at 1. rewrite Hci.
  by apply _log_rank_lookup_raises.
Qed.

Lemma leveled_rank_lookup_error_propagates_witness :
  leveled LvWarning 1%nat "loss is nan" (Group "tensor") (Some [0; 1])
          (stack_from_train "warning")
          (mkEnv ctx_uninitialized os_permissive) world_train
  = (Raise (mkExn KeyError "parallel mode is not initialized"), world_train).
Proof.
  apply (leveled_rank_lookup_error_propagates LvWarning 1%nat "loss is nan"
           (Group "tensor") [0; 1] (stack_from_train "warning")
           ("train.py", 42, "train")); reflexivity.
Defined.

(** *** [log_to_file]: the steps before the handlers *)

(** X4. The type of [path] is checked after the rank test: with a valid
    level, a [path] that is neither a [str] nor a [Path] makes the call
    raise [AssertionError] on the rank-0 path, the state unchanged, while on
    a process of nonzero global rank the same call returns normally. *)
Theorem log_to_file_path_type_checked_on_rank0 self ty mode level env w :
  In level valid_levels ->
  (rank0_path (global_context env) ->
   log_to_file self (POther ty) mode level env w
   = (Raise (mkExn AssertionError
               (String.append "expected argument path to be type str, but got " ty)),
      w))
  /\ (nonzero_rank (global_context env) ->
      log_to_file self (POther ty) mode level env w = (Ok tt, w)).
Proof.
  intros Hv. split.
  - intros H0. by rewrite log_to_file_on_rank0.
  - intros Hn. by apply log_to_file_validates_first.
Qed.

Lemma log_to_file_path_type_checked_on_rank0_witness :
  log_to_file 1%nat (POther "int") "a" "INFO"
              (mkEnv (ctx_ranked 0 0) os_permissive) world_train
  = (Raise (mkExn AssertionError
              "expected argument path to be type str, but got int"), world_train)
  /\ log_to_file 1%nat (POther "int") "a" "INFO"
                 (mkEnv (ctx_ranked 5 0) os_permissive) world_train
     = (Ok tt, world_train).
Proof.
  assert (Hv : In "INFO" valid_levels) by (simpl; auto).
  split.
  - apply (proj1 (log_to_file_path_type_checked_on_rank0 1%nat "int" "a" "INFO"
                    (mkEnv (ctx_ranked 0 0) os_permissive) world_train Hv)).
    right. split; reflexivity.
  - apply (proj2 (log_to_file_path_type_checked_on_rank0 1%nat "int" "a" "INFO"
                    (mkEnv (ctx_ranked 5 0) os_permissive) world_train Hv)).
    split; [reflexivity|]. exists 5. split; [reflexivity | discriminate].
Defined.

(** X5. When [GLOBAL] is initialised and the global-rank lookup raises,
    [log_to_file] with a valid level raises that error before it touches the
    file system or the logger: the state is unchanged. *)
Theorem log_to_file_global_rank_error_propagates self path mode level e env w :
  In level valid_levels ->
  is_initialized (global_context env) GLOBAL = true ->
  get_global_rank (global_context env) = Raise e ->
  log_to_file self path mode level env w = (Raise e, w).
Proof.
  intros Hv Hi Hr. unfold log_to_file, bind at 1. rewrite check_valid by done.
  unfold bind, ask, lift. by rewrite Hi, Hr.
Qed.

Lemma log_to_file_global_rank_error_propagates_witness :
  log_to_file 1%nat (PStr "/tmp/x/log.txt") "a" "INFO"
              (mkEnv ctx_rank_error os_permissive) world_train
  = (Raise (mkExn KeyError "global rank"), world_train).
Proof.
  apply log_to_file_global_rank_error_propagates; [simpl; auto | reflexivity..].
Defined.

(** X6. When the directory can be created but the file cannot be opened,
    [log_to_file] raises the error of the open: the directory stays
    created, and the logger is untouched (no handler object, no handler
    attached, propagation as it was). *)
Theorem log_to_file_failed_open_keeps_logger self path p mode level e env w :
  In level valid_levels ->
  rank0_path (global_context env) ->
  is_path path p ->
  can_makedirs env w (dirname p) ->
  open_error (os env) p mode (events w ++ [EvMakedirs (dirname p)]) = Some e ->
  exists w',
    log_to_file self path mode level env w = (Raise e, w')
    /\ events w' = events w ++ [EvMakedirs (dirname p)]
    /\ loggers w' = loggers w /\ hheap w' = hheap w
    /\ instances w' = instances w /\ objs w' = objs w.
Proof.
  intros Hv H0 Hp [Hne Hmk] Hop. rewrite log_to_file_on_rank0 by done.
  apply String.eqb_neq in Hne.
  destruct Hp as [-> | ->];
    cbv beta iota delta [log_to_file_rank0 bind Os.makedirs FileHandler_new Os.open
                           alloc tell modify get ask lift ret];
    rewrite Hne; simpl; rewrite Hmk; simpl; rewrite Hop;
    eexists; (split; [reflexivity|]); simpl; auto.
Qed.

Lemma log_to_file_failed_open_keeps_logger_witness :
  exists w',
    log_to_file 1%nat (PStr "/tmp/x/") "a" "INFO"
                (mkEnv ctx_uninitialized os_posix) world_train
    = (Raise (mkExn IsADirectoryError "[Errno 21] Is a directory"), w')
    /\ events w' = events world_train ++ [EvMakedirs "/tmp/x"]
    /\ loggers w' = loggers world_train /\ hheap w' = hheap world_train
    /\ instances w' = instances world_train /\ objs w' = objs world_train.
Proof.
  apply (log_to_file_failed_open_keeps_logger 1%nat (PStr "/tmp/x/") "/tmp/x/").
  - simpl. auto.
  - left. reflexivity.
  - left. reflexivity.
  - split; [discriminate | reflexivity].
  - reflexivity.
Defined.

(** *** What the calls leave alone *)

Lemma only_output_refl w : only_output w w.
Proof. repeat split. exists []. by rewrite app_nil_r. Qed.

Lemma only_output_trans a b c :
  only_output a b -> only_output b c -> only_output a c.
Proof.
  intros (H1 & H2 & H3 & H4 & H5 & e1 & H6) (G1 & G2 & G3 & G4 & G5 & e2 & G6).
  repeat split; try congruence.
  exists (e1 ++ e2). rewrite G6, H6. by rewrite app_assoc.
Qed.

Lemma same_objects_refl w : same_objects w w.
Proof. by repeat split. Qed.

Lemma same_objects_trans a b c :
  same_objects a b -> same_objects b c -> same_objects a c.
Proof.
  intros (H1 & H2 & H3) (G1 & G2 & G3). repeat split; [congruence.. | lia].
Qed.

Lemma only_output_same_objects w w' : only_output w w' -> same_objects w w'.
Proof. intros (H1 & H2 & _ & _ & H5 & _). repeat split; [done.. | lia]. Qed.

(** Frames by structure: [refl] and [trans] are the preorder laws of the
    relation, [prim] proves it across one state update. *)
Ltac frame_by refl trans prim :=
  repeat first
    [ apply keeps_ret; try exact refl
    | apply keeps_raise; try exact refl
    | apply keeps_lift; try exact refl
    | apply keeps_ask; try exact refl
    | apply keeps_get; try exact refl
    | apply keeps_py_assert; try exact refl
    | apply keeps_modify; intros ?; prim
    | apply keeps_for_each; try exact refl; try exact trans; [intros ?]
    | apply keeps_bind; try exact trans; [|intros ?]
    | apply keeps_if
    | progress case_match ].

Ltac output_prim :=
  repeat split; simpl; try reflexivity;
  first [ by eexists | exists []; by rewrite app_nil_r ].

Ltac frame_output := frame_by only_output_refl only_output_trans output_prim.

Lemma flush_only_output self : keeps only_output (flush self).
Proof. unfold flush, self_logger, handlers, Handler_flush, tell. frame_output. Qed.

Lemma call_logger_only_output self level text :
  keeps only_output (call_logger self level text).
Proof.
  unfold call_logger, self_logger, getattr_method, log, tell. frame_output.
Qed.

Lemma leveled_only_output l self msg pm ranks stack :
  keeps only_output (leveled l self msg pm ranks stack).
Proof.
  rewrite leveled_unfold. unfold __get_call_info.
  apply keeps_bind; [exact only_output_trans | frame_output | intros ci].
  unfold _log. destruct ranks as [rs|].
  - apply keeps_bind; [exact only_output_trans | frame_output | intros env].
    apply keeps_bind; [exact only_output_trans | frame_output | intros r].
    apply keeps_if; [|frame_output].
    apply keeps_bind;
      [exact only_output_trans | apply call_logger_only_output
      | intros _; apply flush_only_output].
  - apply keeps_bind;
      [exact only_output_trans | apply call_logger_only_output
      | intros _; apply flush_only_output].
Qed.

(** X7. Logging and flushing only write output: whatever a leveled call or
    [flush] does, and whether it returns or raises, the registry, the
    instances, every logger's level, handlers and propagation flag and every
    handler object are as before, and the earlier output is still there. *)
Theorem logging_only_writes_output :
  (forall l self msg pm ranks stack env w,
      only_output w (snd (leveled l self msg pm ranks stack env w)))
  /\ (forall self env w, only_output w (snd (flush self env w))).
Proof.
  split.
  - intros. apply leveled_only_output.
  - intros. apply flush_only_output.
Qed.

(** *** The registry in every reachable state *)

Ltac objects_prim := repeat split; simpl; try reflexivity; try lia.

Ltac frame_objects := frame_by same_objects_refl same_objects_trans objects_prim.

Lemma set_level_same_objects self level : keeps same_objects (set_level self level).
Proof.
  unfold set_level, _check_valid_logging_level, self_logger, getattr_level,
    setLevel, update_logger.
  frame_objects.
Qed.

Lemma log_to_file_same_objects self path mode level :
  keeps same_objects (log_to_file self path mode level).
Proof.
  unfold log_to_file, log_to_file_rank0,
    _check_valid_logging_level, Os.makedirs, Os.open,
    FileHandler_new, StreamHandler_new, Os.open, new_handler, alloc,
    Handler_setLevel, Handler_setFormatter, update_handler,
    set_propagate, addHandler, update_logger, tell, self_logger, getattr_level.
  frame_objects.
Qed.

Lemma registry_ok_same_objects w w' :
  same_objects w w' -> registry_ok w -> registry_ok w'.
Proof.
  intros (Hi & Ho & Hn) [H1 H2]. split.
  - intros n o. rewrite Hi, Ho. apply H1.
  - intros o d. rewrite Ho. intros H. specialize (H2 o d H). lia.
Qed.

Lemma registry_ok_initial : registry_ok initial_world.
Proof. split; intros ? ?; simpl; by rewrite lookup_empty. Qed.

Lemma registry_ok_allocated w : registry_ok w -> registry_ok (allocated w).
Proof.
  apply registry_ok_same_objects. repeat split; simpl; lia.
Qed.

Lemma registry_ok_initialised w name :
  registry_ok w -> instances w !! name = None ->
  registry_ok (initialised (allocated w) (next_id w) name).
Proof.
  intros [H1 H2] Hnone. split; simpl.
  - intros n o Hn. destruct (decide (name = n)) as [<-|Hne].
    + rewrite lookup_insert_eq in Hn. injection Hn as <-.
      by rewrite lookup_insert_eq.
    + rewrite lookup_insert_ne in Hn by done.
      pose proof (H1 n o Hn) as Ho. pose proof (H2 o _ Ho) as Hlt.
      rewrite lookup_insert_ne by lia. exact Ho.
  - intros o d Ho. destruct (decide (next_id w = o)) as [<-|Hne]; [lia|].
    rewrite lookup_insert_ne in Ho by done. specialize (H2 o d Ho). lia.
Qed.

Lemma run_call_registry_ok c env w :
  registry_ok w -> registry_ok (snd (run_call c env w)).
Proof.
  intros Hok. destruct c; simpl.
  - rewrite void_snd. destruct (instances w !! name) as [o|] eqn:H.
    + by rewrite get_instance_registered with (o := o).
    + rewrite get_instance_unregistered by done. by apply registry_ok_initialised.
  - rewrite void_snd. destruct (instances w !! name) as [o|] eqn:H.
    + rewrite new_registered with (o := o) by done. by apply registry_ok_allocated.
    + rewrite new_unregistered by done. by apply registry_ok_initialised.
  - eapply registry_ok_same_objects; [apply set_level_same_objects | done].
  - eapply registry_ok_same_objects; [apply log_to_file_same_objects | done].
  - eapply registry_ok_same_objects;
      [apply only_output_same_objects, flush_only_output | done].
  - eapply registry_ok_same_objects;
      [apply only_output_same_objects, leveled_only_output | done].
Qed.

Lemma run_calls_registry_ok cs env w :
  registry_ok w -> registry_ok (run_calls cs env w).
Proof.
  revert w. induction cs as [|c cs IH]; intros w Hok; simpl; [done|].
  apply IH. by apply run_call_registry_ok.
Qed.

(** X8. One instance per name, in every state a client can reach from a
    fresh interpreter, by any sequence of calls (failed ones included):
    a registered name maps to an initialised instance that carries this very
    name and wraps [logging.getLogger] of it, and two different registered
    names never map to the same instance. *)
Theorem registry_one_instance_per_name cs env :
  let w := run_calls cs env initial_world in
  (forall n o, instances w !! n = Some o ->
               objs w !! o = Some (mkDist n (logger_of n)))
  /\ (forall n n' o, instances w !! n = Some o -> instances w !! n' = Some o ->
                     n = n').
Proof.
  intros w.
  destruct (run_calls_registry_ok cs env initial_world registry_ok_initial)
    as [H1 _].
  fold w in H1. split; [exact H1|].
  intros n n' o Hn Hn'. apply H1 in Hn. apply H1 in Hn'. congruence.
Qed.

(** X9. No sequence of calls on the class removes a name from the registry
    or binds it to another instance: what [get_instance] returned once for a
    name stays registered under it. *)
Theorem registry_never_forgets cs env w n o :
  instances w !! n = Some o -> instances (run_calls cs env w) !! n = Some o.
Proof. apply run_calls_keeps. Qed.

Lemma registry_never_forgets_witness :
  instances
    (run_calls [CConstruct "train"; CGetInstance "eval";
                CLogToFile 1%nat (PStr "log.txt") "a" "INFO";
                CSetLevel 1%nat "TRACE"]
               (mkEnv (ctx_ranked 0 0) os_permissive) world_train)
    !! "train" = Some 1%nat.
Proof. apply registry_never_forgets. vm_compute. reflexivity. Defined.

(** X10. On a sound registry, [get_instance] of an unregistered name
    returns a new instance, different from every instance registered so far,
    named as asked and wrapping [logging.getLogger(name)]; it writes no
    output and changes no logger. *)
Theorem get_instance_creates_new_instance name env w :
  registry_ok w ->
  instances w !! name = None ->
  exists o w',
    get_instance name env w = (Ok o, w')
    /\ (forall n' o', instances w !! n' = Some o' -> o' <> o)
    /\ objs w' !! o = Some (mkDist name (logger_of name))
    /\ instances w' = <[name := o]> (instances w)
    /\ loggers w' = loggers w /\ events w' = events w.
Proof.
  intros [H1 H2] Hnone. exists (next_id w). eexists.
  split; [by apply get_instance_unregistered|].
  split; [|simpl; by rewrite lookup_insert_eq].
  intros n' o' Hn' ->. apply H1 in Hn'. apply H2 in Hn'. lia.
Qed.

Lemma get_instance_creates_new_instance_witness :
  exists o w',
    get_instance "eval" (mkEnv (ctx_ranked 0 0) os_permissive) world_train = (Ok o, w')
    /\ (forall n' o', instances world_train !! n' = Some o' -> o' <> o)
    /\ objs w' !! o = Some (mkDist "eval" (logger_of "eval"))
    /\ instances w' = <["eval" := o]> (instances world_train)
    /\ loggers w' = loggers world_train /\ events w' = events world_train.
Proof.
  apply get_instance_creates_new_instance.
  - apply (run_calls_registry_ok [CGetInstance "train"]
             (mkEnv (ctx_ranked 0 0) os_permissive) initial_world registry_ok_initial).
  - vm_compute. reflexivity.
Defined.

(** *** Construction and the handlers already in place *)

Lemma with_formatter_idem f hd :
  with_formatter f (with_formatter f hd) = with_formatter f hd.
Proof. done. Qed.

Lemma formatted_lookup f hs hp h :
  formatted f hs hp !! h
  = if bool_decide (h ∈ hs) then with_formatter f <$> hp !! h else hp !! h.
Proof.
  revert hp. induction hs as [|a hs IH]; intros hp; [done|].
  change (formatted f (a :: hs) hp)
    with (formatted f hs (alter (with_formatter f) a hp)).
  rewrite IH. destruct (decide (h = a)) as [->|Hne].
  - rewrite lookup_alter_eq.
    rewrite (bool_decide_eq_true_2 (a ∈ a :: hs)) by apply list_elem_of_here.
    case_bool_decide; [|done].
    destruct (hp !! a); simpl; [|done]. by rewrite with_formatter_idem.
  - rewrite lookup_alter_ne by done.
    rewrite (bool_decide_ext (h ∈ a :: hs) (h ∈ hs)); [done|].
    rewrite elem_of_cons. split; [intros [?|?]; [congruence | done] | auto].
Qed.

(** X11. Creating the instance of an unregistered name re-formats the
    handlers the underlying logger already has: each of them gets the
    formatter of [__init__] ([_FORMAT] with the date format
    [%Y-%m-%d %H:%M:%S]) and keeps its class and threshold; every other
    handler object is untouched. *)
Theorem get_instance_reformats_existing_handlers name env w h :
  instances w !! name = None ->
  let w' := snd (get_instance name env w) in
  (h ∈ lg_handlers (logger_state (logger_of name) w) ->
   hheap w' !! h = with_formatter init_formatter <$> hheap w !! h)
  /\ (h ∉ lg_handlers (logger_state (logger_of name) w) ->
      hheap w' !! h = hheap w !! h).
Proof.
  intros Hnone w'. subst w'. rewrite get_instance_unregistered by done.
  simpl. change (formatted _ _ _ !! h)
    with (formatted init_formatter
            (lg_handlers (logger_state (logger_of name) w)) (hheap w) !! h).
  rewrite formatted_lookup. split; intros Hh.
  - by rewrite bool_decide_eq_true_2.
  - by rewrite bool_decide_eq_false_2.
Qed.

Lemma get_instance_reformats_existing_handlers_witness :
  let w' := snd (get_instance "" (mkEnv (ctx_ranked 0 0) os_permissive) initial_world) in
  hheap w' !! 0%nat
  = Some (mkHandler RichHandler NOTSET (Some init_formatter)).
Proof.
  intros w'.
  pose proof (get_instance_reformats_existing_handlers ""
                (mkEnv (ctx_ranked 0 0) os_permissive) initial_world 0%nat
                ltac:(reflexivity)) as [H _].
  refine (eq_trans (H _) _); [vm_compute; apply list_elem_of_here | reflexivity].
Defined.

(** *** Levels: the gate of the logger and the thresholds of its handlers *)

Lemma chain_head lg : exists rest, chain lg = lg :: rest.
Proof. destruct lg; simpl; eauto. Qed.

Lemma effective_level_own w lg v :
  lg_level (logger_state lg w) = v -> v <> 0 ->
  effective_level w (chain lg) = v.
Proof.
  intros Hl Hv. destruct (chain_head lg) as [rest ->]. simpl.
  rewrite Hl. apply Z.eqb_neq in Hv. by rewrite Hv.
Qed.

Lemma logger_state_level_set w lg v :
  logger_state lg (level_set w lg v)
  = mkLogger v (lg_handlers (logger_state lg w)) (lg_propagate (logger_state lg w)).
Proof. unfold logger_state at 1, level_set. simpl. by rewrite lookup_insert_eq. Qed.

Lemma set_level_run self level d env w :
  In level valid_levels -> objs w !! self = Some d ->
  exists v, getattr_level level env w = (Ok v, w)
            /\ In v [INFO; DEBUG; WARNING; ERROR]
            /\ set_level self level env w = (Ok tt, level_set w (_logger d) v).
Proof.
  intros Hv Hd. destruct (getattr_level_valid level env w Hv) as (v & Hg & Hin).
  exists v. split; [done|]. split; [done|].
  unfold set_level, bind at 1. rewrite check_valid by done.
  unfold bind at 1, self_logger, bind at 1, get. rewrite Hd.
  unfold ret at 1. unfold bind at 1. by rewrite Hg.
Qed.

Lemma get_call_info_any stack ci env w :
  __get_call_info stack env w = (Ok ci, w) ->
  forall env' w', __get_call_info stack env' w' = (Ok ci, w').
Proof.
  unfold __get_call_info, bind, lift. intros H env' w'.
  destruct stack as [st|e]; [|discriminate].
  destruct (st !! 2%nat); unfold ret, raise in *; [|discriminate]. congruence.
Qed.

Lemma leveled_unfiltered_run l self msg pm stack ci d env w :
  __get_call_info stack env w = (Ok ci, w) -> objs w !! self = Some d ->
  leveled l self msg pm None stack env w
  = (Ok tt, emission_world w (_logger d) (severity l) (format_message ci msg)).
Proof.
  intros Hci Hd. rewrite leveled_unfold. unfold bind at 1. rewrite Hci.
  rewrite _log_unfiltered. by apply emit_and_flush_run.
Qed.

Lemma emitted_received w lg level text h :
  isEnabledFor w lg level = true -> receives w lg level h ->
  In (EvEmit h (mkRecord (ref_name lg) level text)) (emitted w lg level text).
Proof.
  unfold emitted, receives. intros -> Hr.
  destruct (call_targets w (chain lg) level) as [targets found]. simpl in Hr.
  apply in_or_app. left.
  by apply (in_map (fun h => EvEmit h (mkRecord (ref_name lg) level text))).
Qed.

(** X12. The level given to [set_level] gates the leveled methods of the
    logger.  After [set_level] with a valid level of value [v], a leveled
    call of lower severity hands no record to any handler (it only flushes
    the logger's handlers), and a call of severity [v] or more hands its
    record, tagged with the caller's location, to every handler that
    receives records of that severity. *)
Theorem set_level_gates_leveled_calls self level d l msg pm stack ci env w :
  In level valid_levels ->
  objs w !! self = Some d ->
  __get_call_info stack env w = (Ok ci, w) ->
  exists v w1,
    getattr_level level env w = (Ok v, w)
    /\ set_level self level env w = (Ok tt, w1)
    /\ let lg := _logger d in
       let w2 := snd (leveled l self msg pm None stack env w1) in
       (severity l < v ->
        events w2 = events w1 ++ map EvFlush (lg_handlers (logger_state lg w1)))
       /\ (v <= severity l ->
           forall h, receives w1 lg (severity l) h ->
                     In (EvEmit h (mkRecord (ref_name lg) (severity l)
                                            (format_message ci msg)))
                        (events w2)).
Proof.
  intros Hv Hd Hci.
  destruct (set_level_run self level d env w Hv Hd) as (v & Hg & Hin & Hrun).
  exists v, (level_set w (_logger d) v). split; [done|]. split; [done|].
  assert (Hv0 : v <> 0).
  { simpl in Hin. unfold INFO, DEBUG, WARNING, ERROR in Hin. lia. }
  assert (Heff : effective_level (level_set w (_logger d) v) (chain (_logger d)) = v).
  { apply effective_level_own; [|done]. by rewrite logger_state_level_set. }
  rewrite (leveled_unfiltered_run l self msg pm stack ci d env (level_set w (_logger d) v))
    by first [by apply (get_call_info_any stack ci env w) | done].
  simpl. split.
  - intros Hlt. unfold emitted, isEnabledFor. rewrite Heff.
    by rewrite (proj2 (Z.leb_gt v (severity l)) Hlt).
  - intros Hle h Hr. apply in_or_app. right. apply in_or_app. left.
    apply emitted_received; [|done].
    unfold isEnabledFor. rewrite Heff. by apply Z.leb_le.
Qed.

Lemma set_level_gates_leveled_calls_witness :
  let env := mkEnv (ctx_ranked 0 0) os_permissive in
  exists v w1,
    getattr_level "WARNING" env world_train = (Ok v, world_train)
    /\ set_level 1%nat "WARNING" env world_train = (Ok tt, w1)
    /\ let lg := Named "train" in
       let w2 := snd (leveled LvInfo 1%nat "step 1" GLOBAL None
                              (stack_from_train "info") env w1) in
       (severity LvInfo < v ->
        events w2 = events w1 ++ map EvFlush (lg_handlers (logger_state lg w1)))
       /\ (v <= severity LvInfo ->
           forall h, receives w1 lg (severity LvInfo) h ->
                     In (EvEmit h (mkRecord (ref_name lg) (severity LvInfo)
                                            (format_message ("train.py", 42, "train")
                                                            "step 1")))
                        (events w2)).
Proof.
  intros env.
  apply (set_level_gates_leveled_calls 1%nat "WARNING" (mkDist "train" (Named "train"))
           LvInfo "step 1" GLOBAL (stack_from_train "info") ("train.py", 42, "train")
           env world_train).
  - simpl. auto.
  - vm_compute. reflexivity.
  - reflexivity.
Defined.

Lemma receives_without_propagation w lg level h :
  lg_propagate (logger_state lg w) = false ->
  receives w lg level h
  <-> (h ∈ lg_handlers (logger_state lg w) /\ accepts w level h = true).
Proof.
  intros Hp. unfold receives. destruct (chain_head lg) as [rest ->]. simpl.
  rewrite Hp. simpl. rewrite filter_In, list_elem_of_In. tauto.
Qed.

(** X13. Once [log_to_file] has succeeded on the rank-0 path, the records
    of the logger go to the logger's own handlers only: a handler receives
    a record exactly when the logger lists it and its threshold admits the
    severity, so no handler of the root or of another ancestor receives
    anything any more. *)
Theorem log_to_file_cuts_propagation self path mode level env w w' :
  rank0_path (global_context env) ->
  handlers_allocated w ->
  log_to_file self path mode level env w = (Ok tt, w') ->
  exists d,
    objs w !! self = Some d
    /\ forall sev h,
        receives w' (_logger d) sev h
        <-> (h ∈ lg_handlers (logger_state (_logger d) w')
             /\ accepts w' sev h = true).
Proof.
  intros H0 Hal Hrun.
  destruct (log_to_file_success self path mode level env w w' H0 Hal Hrun)
    as (p & d & v & _ & _ & Hd & _ & ->).
  exists d. split; [done|]. intros sev h.
  apply receives_without_propagation, attached_propagate.
Qed.

Lemma log_to_file_cuts_propagation_witness :
  let env := mkEnv (ctx_ranked 0 0) os_permissive in
  let w' := snd (log_to_file 1%nat (PStr "/tmp/x/log.txt") "a" "INFO" env world_train) in
  exists d,
    objs world_train !! 1%nat = Some d
    /\ forall sev h,
        receives w' (_logger d) sev h
        <-> (h ∈ lg_handlers (logger_state (_logger d) w')
             /\ accepts w' sev h = true).
Proof.
  intros env w'.
  apply (log_to_file_cuts_propagation 1%nat (PStr "/tmp/x/log.txt") "a" "INFO"
           env world_train w').
  - right. split; reflexivity.
  - apply handlers_allocated_train.
  - vm_compute. reflexivity.
Defined.

(** X14. The handlers [log_to_file] attaches filter by their own
    thresholds: after a successful call on the rank-0 path, the new file
    handler receives a record exactly when its severity is at least the
    level given to [log_to_file], and the new console handler exactly when
    it is at least [INFO], whatever level was given. *)
Theorem log_to_file_handler_thresholds self path mode level env w w' :
  rank0_path (global_context env) ->
  handlers_allocated w ->
  log_to_file self path mode level env w = (Ok tt, w') ->
  exists d v,
    objs w !! self = Some d
    /\ getattr_level level env w = (Ok v, w)
    /\ forall sev,
        (receives w' (_logger d) sev (next_id w) <-> v <= sev)
        /\ (receives w' (_logger d) sev (S (next_id w)) <-> INFO <= sev).
Proof.
  intros H0 Hal Hrun.
  destruct (log_to_file_success self path mode level env w w' H0 Hal Hrun)
    as (p & d & v & _ & _ & Hd & Hg & ->).
  exists d, v. split; [done|]. split; [done|]. intros sev.
  rewrite !receives_without_propagation by apply attached_propagate.
  rewrite attached_handlers. unfold accepts.
  rewrite attached_file_handler, attached_stream_handler. simpl.
  rewrite !Z.leb_le, !elem_of_app, !elem_of_cons. tauto.
Qed.

Lemma log_to_file_handler_thresholds_witness :
  let env := mkEnv (ctx_ranked 0 0) os_permissive in
  let w' := snd (log_to_file 1%nat (PStr "/tmp/x/log.txt") "a" "ERROR" env world_train) in
  exists d v,
    objs world_train !! 1%nat = Some d
    /\ getattr_level "ERROR" env world_train = (Ok v, world_train)
    /\ forall sev,
        (receives w' (_logger d) sev (next_id world_train) <-> v <= sev)
        /\ (receives w' (_logger d) sev (S (next_id world_train)) <-> INFO <= sev).
Proof.
  intros env w'.
  apply (log_to_file_handler_thresholds 1%nat (PStr "/tmp/x/log.txt") "a" "ERROR"
           env world_train w').
  - right. split; reflexivity.
  - apply handlers_allocated_train.
  - vm_compute. reflexivity.
Defined.

(** *** [log_to_file] and the level of the logger *)

Lemma same_levels_refl w : same_levels w w.
Proof. by intros r. Qed.

Lemma same_levels_trans a b c :
  same_levels a b -> same_levels b c -> same_levels a c.
Proof. intros H1 H2 r. by rewrite H2, H1. Qed.

Lemma same_levels_update w r x ls :
  lg_level x = lg_level (logger_state r w) ->
  same_levels w (mkWorld (instances w) (objs w) (<[r := x]> (loggers w))
                         ls (next_id w) (events w)).
Proof.
  intros Hf r'. unfold logger_state at 1. simpl.
  destruct (decide (r = r')) as [<-|Hne].
  - by rewrite lookup_insert_eq.
  - by rewrite lookup_insert_ne.
Qed.

Ltac levels_prim :=
  first [ apply same_levels_update; simpl; by repeat case_match
        | by intros ? ].

Ltac frame_levels := frame_by same_levels_refl same_levels_trans levels_prim.

Lemma log_to_file_same_levels self path mode level :
  keeps same_levels (log_to_file self path mode level).
Proof.
  unfold log_to_file, log_to_file_rank0,
    _check_valid_logging_level, Os.makedirs, Os.open,
    FileHandler_new, StreamHandler_new, Os.open, new_handler, alloc,
    Handler_setLevel, Handler_setFormatter, update_handler,
    set_propagate, addHandler, update_logger, tell, self_logger, getattr_level.
  frame_levels.
Qed.

Lemma effective_level_same w w' c :
  same_levels w w' -> effective_level w' c = effective_level w c.
Proof.
  intros H. induction c as [|r c IH]; simpl; [done|]. by rewrite H, IH.
Qed.

(** X15. [log_to_file] never changes the level of a logger, whether it
    succeeds or fails: every logger is enabled for the same severities
    before and after.  So the level given to [log_to_file] cannot widen
    what is logged: a severity the logger is not enabled for produces no
    record after the call either, whatever threshold the file handler
    has. *)
Theorem log_to_file_keeps_level_gate self path mode level env w :
  let w' := snd (log_to_file self path mode level env w) in
  (forall lg sev, isEnabledFor w' lg sev = isEnabledFor w lg sev)
  /\ (forall lg sev text,
         isEnabledFor w lg sev = false -> emitted w' lg sev text = []).
Proof.
  intros w'.
  assert (H : forall lg sev, isEnabledFor w' lg sev = isEnabledFor w lg sev).
  { intros lg sev. unfold isEnabledFor.
    by rewrite (effective_level_same w w' (chain lg)
                  (log_to_file_same_levels self path mode level env w)). }
  split; [exact H|].
  intros lg sev text Hoff. unfold emitted. by rewrite H, Hoff.
Qed.

Lemma log_to_file_keeps_level_gate_witness :
  let env := mkEnv (ctx_ranked 0 0) os_permissive in
  let w' := snd (log_to_file 1%nat (PStr "/tmp/x/log.txt") "a" "DEBUG" env world_train) in
  emitted w' (Named "train") DEBUG "[train.py, 42, train] step 1" = [].
Proof.
  intros env w'.
  apply (proj2 (log_to_file_keeps_level_gate 1%nat (PStr "/tmp/x/log.txt") "a" "DEBUG"
                  env world_train)).
  vm_compute. reflexivity.
Defined.

(** *** The caller's location *)

Lemma substring_all s : String.substring 0 (String.length s) s = s.
Proof. induction s as [|a r IH]; simpl; [done|]. by rewrite IH. Qed.

Lemma drop_suffix n s :
  exists pre, s = String.append pre (String.substring n (String.length s - n) s).
Proof.
  revert n. induction s as [|a r IH]; intros n.
  - exists "". by destruct n.
  - destruct n as [|n].
    + exists "". simpl. by rewrite substring_all.
    + destruct (IH n) as [pre Hpre]. exists (String a pre).
      change (String a r
              = String a (String.append pre
                            (String.substring n (String.length r - n) r))).
      by f_equal.
Qed.

Lemma drop_str_step k a r :
  1 <= k -> drop_str k (String a r) = drop_str (k - 1) r.
Proof.
  intros Hk. unfold drop_str.
  replace (Z.to_nat k) with (S (Z.to_nat (k - 1))) by lia. reflexivity.
Qed.

(** [rfind_from] finds the last occurrence: nothing equal to [c] follows
    the index it returns. *)
Lemma rfind_from_last c s i :
  0 <= i ->
  (rfind_from c s i = -1 /\ forall a, In a (chars s) -> a <> c)
  \/ (i <= rfind_from c s i
      /\ forall a, In a (chars (drop_str (rfind_from c s i - i + 1) s)) -> a <> c).
Proof.
  revert i. induction s as [|a r IH]; intros i Hi; simpl.
  - left. split; [done|]. by intros a [].
  - destruct (IH (i + 1) ltac:(lia)) as [[Hk Hno]|[Hk Hno]].
    + rewrite Hk. simpl. destruct (Ascii.eqb_spec a c) as [->|Hne].
      * right. split; [lia|]. replace (i - i + 1) with 1 by lia.
        rewrite drop_str_step by lia. unfold drop_str. simpl.
        rewrite Nat.sub_0_r, substring_all. exact Hno.
      * left. split; [done|]. intros b [<-|Hb]; [done | by apply Hno].
    + destruct (Z.leb_spec 0 (rfind_from c r (i + 1))) as [_|Hlt]; [|lia].
      right. split; [lia|]. rewrite drop_str_step by lia.
      by replace (rfind_from c r (i + 1) - i + 1 - 1)
        with (rfind_from c r (i + 1) - (i + 1) + 1) by lia.
Qed.

Lemma basename_no_separator p a : In a (chars (basename p)) -> a <> slash.
Proof.
  unfold basename, rfind.
  destruct (rfind_from_last slash p 0 ltac:(lia)) as [[Hk Hno]|[Hk Hno]].
  - rewrite Hk. unfold drop_str. simpl. rewrite Nat.sub_0_r, substring_all.
    apply Hno.
  - replace (rfind_from slash p 0 + 1) with (rfind_from slash p 0 - 0 + 1) by lia.
    apply Hno.
Qed.

Lemma basename_suffix p : exists dir, p = String.append dir (basename p).
Proof. unfold basename, drop_str. apply drop_suffix. Qed.

(** X16. [__get_call_info] reads the third frame of the stack, the caller
    of the leveled method, and changes no state.  With fewer than three
    frames it raises [IndexError].  Otherwise it returns that frame's line
    and function, and as file name the last component of the frame's file:
    a suffix of it that contains no directory separator. *)
Theorem get_call_info_reads_caller_frame st env w :
  ((length st < 3)%nat ->
   __get_call_info (Ok st) env w
   = (Raise (mkExn IndexError "list index out of range"), w))
  /\ ((3 <= length st)%nat ->
      exists fr fn,
        st !! 2%nat = Some fr
        /\ __get_call_info (Ok st) env w
           = (Ok (fn, frame_lineno fr, frame_function fr), w)
        /\ (exists dir, frame_filename fr = String.append dir fn)
        /\ forall a, In a (chars fn) -> a <> slash).
Proof.
  split.
  - intros Hlen. unfold __get_call_info, bind, lift.
    by rewrite (lookup_ge_None_2 st 2) by lia.
  - intros Hlen. destruct (lookup_lt_is_Some_2 st 2 ltac:(lia)) as [fr Hfr].
    exists fr, (basename (frame_filename fr)). split; [done|]. split.
    + unfold __get_call_info, bind, lift. by rewrite Hfr.
    + split; [apply basename_suffix | apply basename_no_separator].
Qed.

Lemma get_call_info_reads_caller_frame_witness :
  __get_call_info (stack_no_caller "info")
                  (mkEnv (ctx_ranked 0 0) os_permissive) world_train
  = (Raise (mkExn IndexError "list index out of range"), world_train)
  /\ exists fr fn,
      [ mkFrame "/repo/colossalai/logging/logger.py" 64 "__get_call_info";
        mkFrame "/repo/colossalai/logging/logger.py" 145 "info";
        mkFrame "/home/u/job/train.py" 42 "train" ] !! 2%nat = Some fr
      /\ __get_call_info (stack_from_train "info")
                         (mkEnv (ctx_ranked 0 0) os_permissive) world_train
         = (Ok (fn, frame_lineno fr, frame_function fr), world_train)
      /\ (exists dir, frame_filename fr = String.append dir fn)
      /\ forall a, In a (chars fn) -> a <> slash.
Proof.
  split.
  - apply (proj1 (get_call_info_reads_caller_frame _ _ _)). simpl. lia.
  - apply (proj2 (get_call_info_reads_caller_frame _ _ _)). simpl. lia.
Defined.

(** *** Calls in sequence *)

(** X17. [get_instance] is idempotent: a second call with the same name
    returns the object of the first and leaves the state exactly as the
    first call left it; in particular the handlers are not re-formatted. *)
Theorem get_instance_twice name env w :
  get_instance name env (snd (get_instance name env w))
  = get_instance name env w.
Proof.
  destruct (get_instance_returns name env w) as (o & Hr & Hreg).
  rewrite (get_instance_registered name o env _ Hreg).
  destruct (get_instance name env w) as [r w']. simpl in *. by subst.
Qed.

Lemma level_set_twice w lg v1 v2 :
  level_set (level_set w lg v1) lg v2 = level_set w lg v2.
Proof.
  unfold level_set at 1. rewrite logger_state_level_set.
  unfold level_set. simpl. by rewrite insert_insert_eq.
Qed.

(** X18. The last [set_level] wins: after two successful calls with valid
    levels the state is the one the second call alone would have produced;
    the handlers and the propagation flag of the logger are those it had
    before. *)
Theorem set_level_last_wins self level1 level2 d env w :
  In level1 valid_levels -> In level2 valid_levels ->
  objs w !! self = Some d ->
  set_level self level2 env (snd (set_level self level1 env w))
  = set_level self level2 env w
  /\ lg_handlers (logger_state (_logger d) (snd (set_level self level2 env w)))
     = lg_handlers (logger_state (_logger d) w)
  /\ lg_propagate (logger_state (_logger d) (snd (set_level self level2 env w)))
     = lg_propagate (logger_state (_logger d) w).
Proof.
  intros Hv1 Hv2 Hd.
  destruct (set_level_run self level1 d env w Hv1 Hd) as (v1 & _ & _ & ->).
  destruct (set_level_run self level2 d env w Hv2 Hd) as (v2 & Hg & _ & ->).
  simpl.
  destruct (set_level_run self level2 d env (level_set w (_logger d) v1) Hv2 Hd)
    as (v2' & Hg' & _ & ->).
  rewrite (getattr_level_any level2 v2 env w Hg env (level_set w (_logger d) v1)) in Hg'.
  injection Hg' as <-.
  rewrite level_set_twice, logger_state_level_set. done.
Qed.

Lemma set_level_last_wins_witness :
  let env := mkEnv (ctx_ranked 0 0) os_permissive in
  set_level 1%nat "DEBUG" env (snd (set_level 1%nat "ERROR" env world_train))
  = set_level 1%nat "DEBUG" env world_train
  /\ lg_handlers (logger_state (Named "train")
                    (snd (set_level 1%nat "DEBUG" env world_train)))
     = lg_handlers (logger_state (Named "train") world_train)
  /\ lg_propagate (logger_state (Named "train")
                     (snd (set_level 1%nat "DEBUG" env world_train)))
     = lg_propagate (logger_state (Named "train") world_train).
Proof.
  intros env.
  apply (set_level_last_wins 1%nat "ERROR" "DEBUG" (mkDist "train" (Named "train"))
           env world_train).
  - simpl. auto.
  - simpl. auto.
  - vm_compute. reflexivity.
Defined.

(** *** File sinks add up *)

Lemma attached_other_logger w lg p mode v r :
  r <> lg ->
  loggers (attached_world w lg p mode v) !! r = loggers w !! r.
Proof. intros Hne. unfold attached_world. simpl. by rewrite lookup_insert_ne. Qed.

Lemma accepts_lookup w sev h hd :
  hheap w !! h = Some hd -> accepts w sev h = (h_level hd <=? sev).
Proof. intros H. unfold accepts. by rewrite H. Qed.

(** X19. A second [log_to_file] adds a sink, it does not replace the
    first: after two successful calls on the rank-0 path the logger has two
    different file handlers, each on the path and mode of its own call, and
    each receives a record exactly when the severity is at least the level
    of its own call.  With the same path twice, a record that passes both
    levels is written twice to that file. *)
Theorem log_to_file_sinks_add_up self env w
    path1 mode1 level1 w1 path2 mode2 level2 w2 :
  rank0_path (global_context env) ->
  handlers_allocated w ->
  log_to_file self path1 mode1 level1 env w = (Ok tt, w1) ->
  log_to_file self path2 mode2 level2 env w1 = (Ok tt, w2) ->
  exists d p1 p2 v1 v2 f1 f2,
    objs w !! self = Some d
    /\ is_path path1 p1 /\ is_path path2 p2
    /\ getattr_level level1 env w = (Ok v1, w)
    /\ getattr_level level2 env w = (Ok v2, w)
    /\ f1 <> f2
    /\ hheap w2 !! f1 = Some (mkHandler (FileHandler p1 mode1) v1 (Some file_formatter))
    /\ hheap w2 !! f2 = Some (mkHandler (FileHandler p2 mode2) v2 (Some file_formatter))
    /\ forall sev,
        (receives w2 (_logger d) sev f1 <-> v1 <= sev)
        /\ (receives w2 (_logger d) sev f2 <-> v2 <= sev).
Proof.
  intros H0 Hal Hrun1 Hrun2.
  destruct (log_to_file_success self path1 mode1 level1 env w w1 H0 Hal Hrun1)
    as (p1 & d & v1 & _ & Hp1 & Hd & Hg1 & ->).
  pose proof (handlers_allocated_attached w (_logger d) p1 mode1 v1 Hal) as Hal1.
  destruct (log_to_file_success self path2 mode2 level2 env _ w2 H0 Hal1 Hrun2)
    as (p2 & d' & v2 & _ & Hp2 & Hd' & Hg2 & ->).
  simpl in Hd'. rewrite Hd in Hd'. injection Hd' as <-.
  set (w1 := attached_world w (_logger d) p1 mode1 v1) in *.
  exists d, p1, p2, v1, v2, (next_id w), (next_id w1).
  assert (Hf1 : hheap (attached_world w1 (_logger d) p2 mode2 v2) !! next_id w
                = Some (mkHandler (FileHandler p1 mode1) v1 (Some file_formatter))).
  { rewrite attached_old_handler by (simpl; lia). apply attached_file_handler. }
  assert (Hin1 : next_id w
                 ∈ lg_handlers (logger_state (_logger d)
                                  (attached_world w1 (_logger d) p2 mode2 v2))).
  { rewrite attached_handlers. subst w1. rewrite attached_handlers.
    rewrite !elem_of_app, !elem_of_cons. auto. }
  assert (Hin2 : next_id w1
                 ∈ lg_handlers (logger_state (_logger d)
                                  (attached_world w1 (_logger d) p2 mode2 v2))).
  { rewrite attached_handlers. rewrite !elem_of_app, !elem_of_cons. auto. }
  split; [done|]. split; [done|]. split; [done|]. split; [done|].
  split; [by apply (getattr_level_any level2 v2 env w1)|].
  split; [simpl; lia|]. split; [done|]. split; [apply attached_file_handler|].
  intros sev.
  rewrite !receives_without_propagation by apply attached_propagate.
  rewrite (accepts_lookup _ sev _ _ Hf1).
  rewrite (accepts_lookup _ sev _ _ (attached_file_handler w1 (_logger d) p2 mode2 v2)).
  simpl. rewrite !Z.leb_le. tauto.
Qed.

Lemma log_to_file_sinks_add_up_witness :
  let env := mkEnv (ctx_ranked 0 0) os_permissive in
  let w1 := snd (log_to_file 1%nat (PStr "/tmp/x/log.txt") "a" "INFO" env world_train) in
  let w2 := snd (log_to_file 1%nat (PPath "/tmp/x/log.txt") "w" "ERROR" env w1) in
  exists d p1 p2 v1 v2 f1 f2,
    objs world_train !! 1%nat = Some d
    /\ is_path (PStr "/tmp/x/log.txt") p1 /\ is_path (PPath "/tmp/x/log.txt") p2
    /\ getattr_level "INFO" env world_train = (Ok v1, world_train)
    /\ getattr_level "ERROR" env world_train = (Ok v2, world_train)
    /\ f1 <> f2
    /\ hheap w2 !! f1 = Some (mkHandler (FileHandler p1 "a") v1 (Some file_formatter))
    /\ hheap w2 !! f2 = Some (mkHandler (FileHandler p2 "w") v2 (Some file_formatter))
    /\ forall sev,
        (receives w2 (_logger d) sev f1 <-> v1 <= sev)
        /\ (receives w2 (_logger d) sev f2 <-> v2 <= sev).
Proof.
  intros env w1 w2.
  apply (log_to_file_sinks_add_up 1%nat env world_train
           (PStr "/tmp/x/log.txt") "a" "INFO" w1
           (PPath "/tmp/x/log.txt") "w" "ERROR" w2).
  - right. split; reflexivity.
  - apply handlers_allocated_train.
  - vm_compute. reflexivity.
  - vm_compute. reflexivity.
Defined.

(** X20. A successful [log_to_file] reconfigures the logger of its own
    instance only: every other logger, the root included, keeps its level,
    its handlers and its propagation flag, and every handler object that
    existed before is unchanged. *)
Theorem log_to_file_leaves_other_loggers self path mode level env w w' :
  rank0_path (global_context env) ->
  handlers_allocated w ->
  log_to_file self path mode level env w = (Ok tt, w') ->
  exists d,
    objs w !! self = Some d
    /\ (forall r, r <> _logger d -> loggers w' !! r = loggers w !! r)
    /\ (forall h hd, hheap w !! h = Some hd -> (h < next_id w)%nat ->
                     hheap w' !! h = Some hd).
Proof.
  intros H0 Hal Hrun.
  destruct (log_to_file_success self path mode level env w w' H0 Hal Hrun)
    as (p & d & v & _ & _ & Hd & _ & ->).
  exists d. split; [done|]. split.
  - intros r Hr. by apply attached_other_logger.
  - intros h hd Hh Hlt. by rewrite attached_old_handler.
Qed.

Lemma log_to_file_leaves_other_loggers_witness :
  let env := mkEnv (ctx_ranked 0 0) os_permissive in
  let w' := snd (log_to_file 1%nat (PStr "/tmp/x/log.txt") "a" "INFO" env world_train) in
  exists d,
    objs world_train !! 1%nat = Some d
    /\ (forall r, r <> _logger d -> loggers w' !! r = loggers world_train !! r)
    /\ (forall h hd, hheap world_train !! h = Some hd -> (h < next_id world_train)%nat ->
                     hheap w' !! h = Some hd).
Proof.
  intros env w'.
  apply (log_to_file_leaves_other_loggers 1%nat (PStr "/tmp/x/log.txt") "a" "INFO"
           env world_train w').
  - right. split; reflexivity.
  - apply handlers_allocated_train.
  - vm_compute. reflexivity.
Defined.
